(** * Playback supervisor of yt_restream_apps: a shallow embedding

    The development follows [src/stream_manager.py].  The quality catalog is
    the module-level dictionary [QUALITY_PRESETS]; the worker
    [StreamManager._stream_worker] is written in a small monad that threads
    the manager's fields, the cycle-local variable [command] and Python's
    control flow ([continue], [break], a propagating [Exception]) and that
    records what the worker does to the outside world as a list of events.

    Whatever the worker learns from outside (the playlist resolver, the
    media locator, [subprocess.Popen], the file system and the clock of the
    startup probe, [poll()] of the transcode process, and the API threads
    that enqueue commands or set the stop event) is supplied as an oracle. *)

From Stdlib Require Import ZArith Lia.
From stdpp Require Import base option list strings gmap.

Local Open Scope string_scope.
Local Open Scope list_scope.
Local Open Scope Z_scope.

(** ** The quality catalog and the manager's configuration *)

Module Catalog.

(** One entry of [QUALITY_PRESETS]. *)
Record Preset : Type := mkPreset {
  format : string;
  resolution : string;
  bitrate : string;
}.

Definition QUALITY_PRESETS : gmap string Preset :=
  list_to_map [
    ("1080p", mkPreset "bestvideo[height<=1080]+bestaudio/best[height<=1080]"
                       "1920x1080" "4000k");
    ("720p",  mkPreset "bestvideo[height<=720]+bestaudio/best[height<=720]"
                       "1280x720" "2500k");
    ("480p",  mkPreset "bestvideo[height<=480]+bestaudio/best[height<=480]"
                       "854x480" "1000k");
    ("360p",  mkPreset "bestvideo[height<=360]+bestaudio/best[height<=360]"
                       "640x360" "700k")
  ].

(** [self.config = {"url": url, **QUALITY_PRESETS[quality_key]}]. *)
Record Config : Type := mkConfig {
  url : string;
  preset : Preset;
}.

(** The configuration part of [StreamManager.__init__].  [None] stands for the
    [KeyError] that the subscript [QUALITY_PRESETS[quality_key]] raises on a
    missing key. *)
Definition init_config (url quality_key : string) : option Config :=
  let quality_key :=
    if decide (is_Some (QUALITY_PRESETS !! quality_key))
    then quality_key            (* quality_key in QUALITY_PRESETS *)
    else "720p" in
  p ← QUALITY_PRESETS !! quality_key;
  Some (mkConfig url p).

End Catalog.

(** ** The worker's data *)

Module Worker.
Import Catalog.

(** The handle that [subprocess.Popen] returns, named by its process id. *)
Definition Proc : Type := nat.

(** What the API methods put on [command_queue]: ["stop"], ["next"],
    ["prev"] and the pair [("skip", video_num)]. *)
Inductive CmdData : Type :=
| Stop
| Next
| Prev
| Skip (video_num : Z).

#[global] Instance CmdData_eq_dec : EqDecision CmdData.
Proof. solve_decision. Defined.

(** The fields of a [StreamManager] that the worker reads and writes.
    [stop_event] and [stream_ready] are [threading.Event]s, held as their
    flags. *)
Record Manager : Type := mkManager {
  ffmpeg_proc : option Proc;
  playlist : list string;
  current_index : Z;
  command_queue : list CmdData;
  stop_event : bool;
  stream_ready : bool;
}.

(** The initial field values of [__init__]. *)
Definition init_manager : Manager :=
  mkManager None [] (-1) [] false false.

(** A frame of [_stream_worker]: the object and the local [command]. *)
Record Frame : Type := mkFrame {
  self : Manager;
  command : option string;
}.

(** What the worker does to the outside world.  Sleeps are in milliseconds. *)
Inductive Event : Type :=
| EvSleep (ms : Z)
| EvFetch (url : string)
| EvStart (index : Z) (page_url : string)
| EvClean
| EvReady (flag : bool)
| EvLaunch (p : Proc) (video_url audio_url resolution bitrate : string)
| EvProbe (ok : bool)
| EvTerminate (p : Proc).

(** ** What the outside world answers *)

Inductive Outcome (A : Type) : Type :=
| Returns (a : A)
| Raises.
Arguments Returns {A} a.
Arguments Raises {A}.

(** What other threads did since the worker last looked: the commands they
    enqueued, and whether [stop_event.set()] was called.  The worker looks
    at the head of every turn of its loop and at every poll of the
    monitoring loop; what happens in between is seen at the next look.  A
    command put while the worker is busy elsewhere in a cycle (a back-off
    sleep, the media lookup, the startup probe, the [finally] suite) so
    counts as arriving at the head of the next turn: the runs in which the
    [finally] suite itself is the first to see it are not among those
    described here. *)
Record Interference : Type := mkInterference {
  arrivals : list CmdData;
  stop_set : bool;
}.

Definition quiet : Interference := mkInterference [] false.

(** One iteration of the startup probe: the clock reading minus
    [start_time] in milliseconds, whether each file exists with a positive
    size, and whether [poll()] reports an exit status. *)
Record ProbeObs : Type := mkProbeObs {
  elapsed : Z;
  m3u8_nonempty : bool;
  ts_nonempty : bool;
  proc_exited : bool;
}.

(** One iteration of the monitoring loop. *)
Record Tick : Type := mkTick {
  meanwhile : Interference;
  exited : bool;
}.

(** The answers one cycle of the worker may ask for.

    [resolver url] is the call [_get_playlist_videos(url)]: the list it
    returns, which is empty when [extract_info] failed inside it, or an
    exception that escapes it.  [locator page_url format] is the call
    [_get_media_url(page_url, format)]: the pair it returns, [(None, None)]
    when the lookup failed inside it.  [popen] is [_stream_video], that is
    [subprocess.Popen].  [probe_obs] is what the iterations of
    [_wait_for_stream] see.  [_wait_for_stream] has no handler of its own:
    [os.path.getsize] raises [OSError] on a file that is gone again after
    [os.path.exists] found it, and the exception leaves the probe with the
    process held.  [probe_raises] tells whether that happens in the
    iteration after those of [probe_obs], should the loop still be running
    then.  [ticks] is what the iterations of the monitoring loop see. *)
Record Env : Type := mkEnv {
  resolver : string -> Outcome (list string);
  locator : string -> string -> Outcome (option string * option string);
  popen : Outcome Proc;
  probe_obs : list ProbeObs;
  probe_raises : bool;
  ticks : list Tick;
}.

(** ** Python's control flow as a monad *)

Inductive Ctl (A : Type) : Type :=
| Normal (a : A)   (* the statement completed *)
| Continue         (* [continue] of the worker's [while] *)
| Break            (* [break] of the worker's [while] *)
| Raised           (* an [Exception] is propagating *)
| Starved.         (* the oracle holds no further observation *)
Arguments Normal {A} a.
Arguments Continue {A}.
Arguments Break {A}.
Arguments Raised {A}.
Arguments Starved {A}.

Definition M (A : Type) : Type := Frame -> Ctl A * Frame * list Event.

Definition ret {A} (a : A) : M A := fun f => (Normal a, f, []).

Definition bind {A B} (m : M A) (k : A -> M B) : M B :=
  fun f =>
    match m f with
    | (Normal a, f1, t1) =>
        match k a f1 with
        | (c, f2, t2) => (c, f2, t1 ++ t2)
        end
    | (Continue, f1, t1) => (Continue, f1, t1)
    | (Break, f1, t1) => (Break, f1, t1)
    | (Raised, f1, t1) => (Raised, f1, t1)
    | (Starved, f1, t1) => (Starved, f1, t1)
    end.

Declare Scope worker_scope.
Delimit Scope worker_scope with worker.
Notation "x ← y ; z" := (bind y (fun x => z))
  (at level 20, y at level 100, z at level 200, only parsing) : worker_scope.
Notation "x ;; z" := (bind x (fun _ => z))
  (at level 100, z at level 200, only parsing, right associativity)
  : worker_scope.
Local Open Scope worker_scope.

Definition continue_ {A} : M A := fun f => (Continue, f, []).
Definition break_ {A} : M A := fun f => (Break, f, []).
Definition raise_ {A} : M A := fun f => (Raised, f, []).
Definition starve {A} : M A := fun f => (Starved, f, []).
Definition emit (e : Event) : M unit := fun f => (Normal tt, f, [e]).
Definition sleep (ms : Z) : M unit := emit (EvSleep ms).

Definition get {A} (field : Manager -> A) : M A :=
  fun f => (Normal (field (self f)), f, []).
Definition get_command : M (option string) :=
  fun f => (Normal (command f), f, []).
Definition update (g : Manager -> Manager) : M unit :=
  fun f => (Normal tt, mkFrame (g (self f)) (command f), []).
Definition set_command (c : option string) : M unit :=
  fun f => (Normal tt, mkFrame (self f) c, []).

Definition set_ffmpeg_proc (p : option Proc) : M unit :=
  update (fun m => mkManager p (playlist m) (current_index m)
                     (command_queue m) (stop_event m) (stream_ready m)).
Definition set_playlist (l : list string) : M unit :=
  update (fun m => mkManager (ffmpeg_proc m) l (current_index m)
                     (command_queue m) (stop_event m) (stream_ready m)).
Definition set_current_index (i : Z) : M unit :=
  update (fun m => mkManager (ffmpeg_proc m) (playlist m) i
                     (command_queue m) (stop_event m) (stream_ready m)).
Definition set_command_queue (q : list CmdData) : M unit :=
  update (fun m => mkManager (ffmpeg_proc m) (playlist m) (current_index m)
                     q (stop_event m) (stream_ready m)).
(** [stream_ready.set()] and [stream_ready.clear()]. *)
Definition set_stream_ready (b : bool) : M unit :=
  update (fun m => mkManager (ffmpeg_proc m) (playlist m) (current_index m)
                     (command_queue m) (stop_event m) b);;
  emit (EvReady b).

(** An external call: its answer, or the exception it raises. *)
Definition call {A} (o : Outcome A) : M A :=
  match o with
  | Returns a => ret a
  | Raises => raise_
  end.

(** Other threads run: [command_queue.put] appends, [stop_event.set()]
    sets. *)
Definition interfere (i : Interference) : M unit :=
  update (fun m => mkManager (ffmpeg_proc m) (playlist m) (current_index m)
                     (command_queue m ++ arrivals i)
                     (stop_event m || stop_set i) (stream_ready m)).

(** [try: body / except Exception: handler / finally: final].  The [finally]
    suite runs on every way out of the other two; when it completes, the
    pending [continue], [break] or exception resumes. *)
Definition try_except_finally (body handler final : M unit) : M unit :=
  fun f =>
    let '(c1, f1, t1) := body f in
    match c1 with
    | Starved => (Starved, f1, t1)
    | _ =>
        let '(c2, f2, t2) :=
          match c1 with
          | Raised => handler f1
          | _ => (c1, f1, [])
          end in
        match c2 with
        | Starved => (Starved, f2, t1 ++ t2)
        | _ =>
            let '(c3, f3, t3) := final f2 in
            (match c3 with Normal _ => c2 | _ => c3 end, f3, t1 ++ t2 ++ t3)
        end
    end.

(** One pass through the body of [while not self.stop_event.is_set():]:
    [true] when the loop goes on to test its condition again, [false] after
    a [break]. *)
Definition iteration (body : M unit) : M bool :=
  fun f =>
    match body f with
    | (Normal _, f1, t1) => (Normal true, f1, t1)
    | (Continue, f1, t1) => (Normal true, f1, t1)
    | (Break, f1, t1) => (Normal false, f1, t1)
    | (Raised, f1, t1) => (Raised, f1, t1)
    | (Starved, f1, t1) => (Starved, f1, t1)
    end.

(** ** Python values *)

(** [not command] for a local that is [None] or a string. *)
Definition falsy (s : option string) : bool :=
  match s with
  | None => true
  | Some s => bool_decide (s = "")
  end.

(** [l[i]] on a list: negative subscripts count from the end, anything else
    out of range is an [IndexError] ([None]). *)
Definition subscript {A} (l : list A) (i : Z) : option A :=
  let n := Z.of_nat (length l) in
  if bool_decide (0 <= i < n) then l !! Z.to_nat i
  else if bool_decide (- n <= i < 0) then l !! Z.to_nat (n + i)
  else None.

Definition is_nil {A} (l : list A) : bool :=
  match l with
  | [] => true
  | _ => false
  end.

(** ** The startup probe, [_wait_for_stream] *)

(** The three ways out of the probe, told apart by the line it prints: both
    files found, the process found dead, the time used up. *)
Inductive ProbeEnd : Type :=
| Started
| Died
| TimedOut.

(** The [while time.time() - start_time < timeout] loop, one observation per
    iteration; [None] when the observations end before the loop does. *)
Fixpoint probe_loop (timeout : Z) (proc : option Proc)
    (m3u8_ready ts_ready : bool) (obs : list ProbeObs) : option ProbeEnd :=
  match obs with
  | [] => None
  | o :: obs' =>
      if bool_decide (elapsed o < timeout) then
        let m3u8_ready :=
          if negb m3u8_ready && m3u8_nonempty o then true else m3u8_ready in
        let ts_ready :=
          if negb ts_ready && ts_nonempty o then true else ts_ready in
        if m3u8_ready && ts_ready then Some Started
        else if bool_decide (is_Some proc) && proc_exited o then Some Died
        else (* time.sleep(0.5) *)
          probe_loop timeout proc m3u8_ready ts_ready obs'
      else Some TimedOut
  end.

Definition probe_result (e : ProbeEnd) : bool :=
  match e with
  | Started => true
  | Died | TimedOut => false
  end.

(** [timeout=20], in milliseconds. *)
Definition default_timeout : Z := 20000.

Definition _wait_for_stream (proc : option Proc) (obs : list ProbeObs)
  : option bool :=
  probe_result <$> probe_loop default_timeout proc false false obs.

(** ** The worker, [_stream_worker] *)

(** [if self.ffmpeg_proc: self.ffmpeg_proc.terminate()]. *)
Definition terminate_if_any : M unit :=
  p ← get ffmpeg_proc;
  match p with
  | Some p => emit (EvTerminate p)
  | None => ret tt
  end.

(** 1. Check for commands first. *)
Definition check_commands : M unit :=
  q ← get command_queue;
  match q with
  | [] => ret tt
  | cmd_data :: q' =>
      set_command_queue q';;
      match cmd_data with
      | Stop => break_
      | Skip video_num =>
          set_command (Some "skip");;
          set_current_index (video_num - 1)
      | Next =>
          set_command (Some "next");;
          i ← get current_index;
          set_current_index (i + 1)
      | Prev =>
          set_command (Some "prev");;
          i ← get current_index;
          set_current_index (i - 1)
      end
  end.

(** 2. Playlist validation: [if not self.playlist: ...]. *)
Definition validate_playlist (cfg : Config) (env : Env) : M unit :=
  pl ← get playlist;
  if is_nil pl then
    emit (EvFetch (url cfg));;
    fetched ← call (resolver env (url cfg));
    set_playlist fetched;;
    if is_nil fetched then
      sleep 60000;;
      continue_
    else
      i ← get current_index;
      if bool_decide (i = -1) then set_current_index 0 else ret tt
  else ret tt.

(** 2. Index validation: "Handle index boundaries". *)
Definition handle_boundaries : M unit :=
  i ← get current_index;
  pl ← get playlist;
  let len := Z.of_nat (length pl) in
  if negb (bool_decide (0 <= i < len)) then
    if bool_decide (i >= len) then set_current_index 0
    else if bool_decide (i < 0) then set_current_index (len - 1)
    else ret tt
  else ret tt.

(** The call [self._wait_for_stream(self.m3u8_file)]: its result, or the
    exception of a file test that escapes it. *)
Definition wait_for_stream (env : Env) : M bool :=
  p ← get ffmpeg_proc;
  match _wait_for_stream p (probe_obs env) with
  | Some ok => emit (EvProbe ok);; ret ok
  | None => if probe_raises env then raise_ else starve
  end.

(** 3. Get video and start stream. *)
Definition start_stream (cfg : Config) (env : Env) : M unit :=
  i ← get current_index;
  pl ← get playlist;
  match subscript pl i with
  | None => raise_
  | Some page_url =>
      emit (EvStart i page_url);;
      urls ← call (locator env page_url (format (preset cfg)));
      let '(video_url, audio_url) := urls in
      if falsy video_url || falsy audio_url then
        set_command (Some "next");;
        continue_
      else
        emit EvClean;;
        set_stream_ready false;;
        p ← call (popen env);
        emit (EvLaunch p (default "" video_url) (default "" audio_url)
                (resolution (preset cfg)) (bitrate (preset cfg)));;
        set_ffmpeg_proc (Some p);;
        ok ← wait_for_stream env;
        if negb ok then
          terminate_if_any;;
          set_command (Some "next");;
          continue_
        else
          set_stream_ready true
  end.

(** 4. Wait for ffmpeg to finish (or command):
    [while self.ffmpeg_proc.poll() is None: ...], one tick per iteration. *)
Fixpoint wait_for_finish (ticks : list Tick) : M unit :=
  match ticks with
  | [] => starve
  | t :: ticks' =>
      interfere (meanwhile t);;
      proc ← get ffmpeg_proc;
      match proc with
      | None => raise_
      | Some p =>
          if exited t then ret tt
          else
            stop ← get stop_event;
            if stop then emit (EvTerminate p)
            else
              q ← get command_queue;
              if negb (is_nil q) then emit (EvTerminate p)
              else
                sleep 500;;
                wait_for_finish ticks'
      end
  end.

(** [except Exception as e: ...]. *)
Definition on_exception : M unit :=
  terminate_if_any;;
  sleep 10000.

(** 5. Cleanup and index logic, the [finally] suite. *)
Definition cleanup : M unit :=
  set_ffmpeg_proc None;;
  c ← get_command;
  q ← get command_queue;
  stop ← get stop_event;
  (if falsy c && is_nil q && negb stop then
     i ← get current_index;
     set_current_index (i + 1)
   else ret tt);;
  q ← get command_queue;
  if is_nil q then sleep 3000 else ret tt.

(** Steps 1 and 2: what decides which video the cycle plays. *)
Definition select_video (cfg : Config) (env : Env) : M unit :=
  check_commands;;
  validate_playlist cfg env;;
  handle_boundaries.

(** The [try] suite. *)
Definition attempt (cfg : Config) (env : Env) : M unit :=
  select_video cfg env;;
  start_stream cfg env;;
  wait_for_finish (ticks env).

(** The body of the worker's [while]. *)
Definition cycle (cfg : Config) (env : Env) : M unit :=
  set_command None;;
  try_except_finally (attempt cfg env) on_exception cleanup.

(** [_stream_worker]: every turn of the loop takes what other threads did
    since the last one and the answers the cycle may ask for. *)
Fixpoint _stream_worker (cfg : Config) (oracle : list (Interference * Env))
  : M unit :=
  match oracle with
  | [] => starve
  | (i, env) :: oracle' =>
      interfere i;;
      stop ← get stop_event;
      if stop then set_stream_ready true
      else
        again ← iteration (cycle cfg env);
        if again then _stream_worker cfg oracle'
        else set_stream_ready true
  end.

(** ** The API side *)

(** [stop()] as the worker sees it once its first two statements have run:
    the event is set and ["stop"] is on the queue.  Between the two the
    worker sees the event alone. *)
Definition stop_request : Interference := mkInterference [Stop] true.
Definition stop_begun : Interference := mkInterference [] true.

Record Status : Type := mkStatus {
  status : string;
  video : Z;
  total : nat;
}.

Definition get_status (m : Manager) : Status :=
  mkStatus (if stream_ready m then "ready" else "loading")
           (if bool_decide (current_index m >= 0) then current_index m + 1
            else 0)
           (length (playlist m)).

(** ** Reading a run *)

Definition run {A} (m : M A) (s : Manager) : Ctl A * Frame * list Event :=
  m (mkFrame s None).

Definition ctl_of {A} (r : Ctl A * Frame * list Event) : Ctl A := r.1.1.
Definition state_of {A} (r : Ctl A * Frame * list Event) : Manager :=
  self r.1.2.
Definition frame_of {A} (r : Ctl A * Frame * list Event) : Frame := r.1.2.
Definition trace_of {A} (r : Ctl A * Frame * list Event) : list Event := r.2.

(** Steps 1 to 3 of a cycle, up to the point where the stream is live. *)
Definition go_live (cfg : Config) (env : Env) : M unit :=
  select_video cfg env;;
  start_stream cfg env.

(** The readiness flag after the events of [t], from the flag [r]. *)
Fixpoint ready_after (r : bool) (t : list Event) : bool :=
  match t with
  | [] => r
  | EvReady b :: t' => ready_after b t'
  | _ :: t' => ready_after r t'
  end.

(** Every launch in [t] happens while the readiness flag is down. *)
Fixpoint launches_unready (r : bool) (t : list Event) : bool :=
  match t with
  | [] => true
  | EvReady b :: t' => launches_unready b t'
  | EvLaunch _ _ _ _ _ :: t' => negb r && launches_unready r t'
  | _ :: t' => launches_unready r t'
  end.

(** Every [stream_ready.set()] in [t] comes directly after a startup probe
    that succeeded; [prev] is the event before [t]. *)
Fixpoint sets_follow_probe (prev : option Event) (t : list Event) : bool :=
  match t with
  | [] => true
  | e :: t' =>
      match e, prev with
      | EvReady true, Some (EvProbe true) => true
      | EvReady true, _ => false
      | _, _ => true
      end && sets_follow_probe (Some e) t'
  end.

(** Every [stream_ready.clear()] in [t] comes directly after the output
    directory was cleaned, and every launch directly after a clear: the
    flag is cleared where a launch is prepared and nowhere else.  [prev] is
    the event before [t]. *)
Fixpoint clears_at_launch (prev : option Event) (t : list Event) : bool :=
  match t with
  | [] => true
  | e :: t' =>
      match e, prev with
      | EvReady false, Some EvClean => true
      | EvReady false, _ => false
      | EvLaunch _ _ _ _ _, Some (EvReady false) => true
      | EvLaunch _ _ _ _ _, _ => false
      | _, _ => true
      end && clears_at_launch (Some e) t'
  end.

(** Events that neither start a video nor touch the readiness flag or a
    launch. *)
Definition passive (e : Event) : Prop :=
  match e with
  | EvSleep _ | EvFetch _ | EvTerminate _ => True
  | _ => False
  end.

(** The readiness discipline of a stretch of the trace, whatever came
    before it. *)
Definition well_behaved (t : list Event) : Prop :=
  (forall b, launches_unready b t = true) /\
  (forall prev, sets_follow_probe prev t = true) /\
  (forall prev, clears_at_launch prev t = true).

(** An interference that asks the worker to stop, by the event or by a
    queued ["stop"]. *)
Definition asks_stop (i : Interference) : bool :=
  stop_set i || bool_decide (Stop ∈ arrivals i).

(** Some turn of the oracle, at the head of a cycle or during monitoring,
    asks the worker to stop. *)
Definition turn_asks_stop (turn : Interference * Env) : bool :=
  asks_stop turn.1 || existsb (fun k => asks_stop (meanwhile k)) (ticks turn.2).

(** A stop is pending in the manager itself. *)
Definition stop_pending (s : Manager) : bool :=
  stop_event s || bool_decide (Stop ∈ command_queue s).

(** What a stretch [t] of a run from [s] to [s'] keeps: a playlist, once
    found, is never replaced; every video started lies within it; the
    readiness flag is what the trace says, under the readiness discipline;
    and a stop is pending afterwards only if it was pending before or
    [asked] for meanwhile. *)
Definition tracked (asked : Prop) (s s' : Manager) (t : list Event) : Prop :=
  (playlist s <> [] -> playlist s' = playlist s) /\
  (forall i u, EvStart i u ∈ t ->
     0 <= i < Z.of_nat (length (playlist s')) /\
     playlist s' !! Z.to_nat i = Some u) /\
  stream_ready s' = ready_after (stream_ready s) t /\
  well_behaved t /\
  (stop_pending s' = true -> stop_pending s = true \/ asked).

(** Whether the worker function has returned. *)
Definition returned {A} (c : Ctl A) : bool :=
  match c with
  | Normal _ => true
  | _ => false
  end.

(** The manager after [stream_ready.set()]. *)
Definition with_ready (s : Manager) : Manager :=
  mkManager (ffmpeg_proc s) (playlist s) (current_index s)
    (command_queue s) (stop_event s) true.

End Worker.

(** ** Concrete runs used below *)

Module Scenario.
Import Catalog Worker.

Definition cfg : Config :=
  mkConfig "PL" (mkPreset "bestvideo[height<=720]+bestaudio/best[height<=720]"
                          "1280x720" "2500k").

Definition abc : list string := ["A"; "B"; "C"].

(** The manager with playlist [A, B, C], nothing running. *)
Definition at_index (i : Z) (q : list CmdData) : Manager :=
  mkManager None abc i q false false.

Definition found : string -> string -> Outcome (option string * option string) :=
  fun page_url _ => Returns (Some (page_url +:+ "/v"), Some (page_url +:+ "/a")).

Definition not_found
  : string -> string -> Outcome (option string * option string) :=
  fun _ _ => Returns (None, None).

(** Manifest first, then the first chunk. *)
Definition files_appear : list ProbeObs :=
  [mkProbeObs 0 true false false; mkProbeObs 500 true true false].

(** The resolver finds nothing. *)
Definition env_no_playlist : Env :=
  mkEnv (fun _ => Returns []) found (Returns 7%nat) files_appear false [].

(** The media locator finds nothing. *)
Definition env_no_media : Env :=
  mkEnv (fun _ => Returns abc) not_found (Returns 7%nat) files_appear false [].

(** Everything works; the monitoring loop sees [tk]. *)
Definition env_play (tk : list Tick) : Env :=
  mkEnv (fun _ => Returns abc) found (Returns 7%nat) files_appear false tk.

(** [Popen] fails, as when ffmpeg is not installed. *)
Definition env_no_ffmpeg : Env :=
  mkEnv (fun _ => Returns abc) found Raises files_appear false [].

(** ffmpeg writes the manifest and exits before the first chunk. *)
Definition env_dies_early : Env :=
  mkEnv (fun _ => Returns abc) found (Returns 7%nat)
    [mkProbeObs 0 true false false; mkProbeObs 500 true false true] false [].

(** The manifest is gone again when the probe's second iteration asks for
    its size. *)
Definition env_probe_raises : Env :=
  mkEnv (fun _ => Returns abc) found (Returns 7%nat)
    [mkProbeObs 0 false false false] true [].

(** The process runs for one poll and then exits by itself. *)
Definition plays_out : list Tick := [mkTick quiet false; mkTick quiet true].

(** One quiet poll, then [next()] is called. *)
Definition next_pressed : list Tick :=
  [mkTick quiet false; mkTick (mkInterference [Next] false) false].

End Scenario.

(** ** The wrappers around yt-dlp *)

Module Resolve.
Import Worker.

(** What [extract_info] gives for a playlist URL, as far as
    [_get_playlist_videos] reads it.  An entry is [None] when it is falsy
    ([None] or an empty dictionary), and otherwise holds its ["url"] when
    that key is there. *)
Inductive PlaylistInfo : Type :=
| IsPlaylist (entries : list (option (option string)))
| NotPlaylist.

(** [[entry["url"] for entry in info["entries"] if entry]]; [None] is the
    [KeyError] of an entry without ["url"]. *)
Fixpoint entry_urls (entries : list (option (option string)))
  : option (list string) :=
  match entries with
  | [] => Some []
  | None :: rest => entry_urls rest
  | Some None :: _ => None
  | Some (Some u) :: rest => cons u <$> entry_urls rest
  end.

(** [_get_playlist_videos]: [extract] is what [ydl.extract_info] returns or
    that it raises; with ["ignoreerrors"] it may return [None], on which
    the test ["_type" in info] raises.  Every exception is caught. *)
Definition _get_playlist_videos (extract : Outcome (option PlaylistInfo))
    (url : string) : list string :=
  match extract with
  | Returns (Some (IsPlaylist entries)) => default [] (entry_urls entries)
  | Returns (Some NotPlaylist) => [url]
  | Returns None => []
  | Raises => []
  end.





(** The oracles of a cycle when the two wrappers run over [extract_info]. *)
Definition resolver_over (extract : string -> Outcome (option PlaylistInfo))
  : string -> Outcome (list string) :=
  fun url => Returns (_get_playlist_videos (extract url) url).



End Resolve.

(** ** The output directory and the ffmpeg command *)

Module Hls.
Import Worker.

(** [s.endswith(suffix)]: some tail of [s] is [suffix]. *)
Fixpoint endswith (s suffix : string) : bool :=
  String.eqb s suffix ||
  match s with
  | EmptyString => false
  | String _ s' => endswith s' suffix
  end.

(** [os.path.join(a, b)] of [posixpath]. *)
Definition path_join (a b : string) : string :=
  if String.prefix "/" b then b
  else if String.eqb a "" || endswith a "/" then a +:+ b
  else a +:+ "/" +:+ b.

(** [HLS_DIR = os.path.join(os.getcwd(), "hls")]. *)
Definition HLS_DIR (cwd : string) : string := path_join cwd "hls".

(** [self.m3u8_file] and the [ts_path] of [_wait_for_stream]. *)
Definition m3u8_file (cwd : string) : string :=
  path_join (HLS_DIR cwd) "stream.m3u8".
Definition ts_path (cwd : string) : string :=
  path_join (HLS_DIR cwd) "stream000.ts".

(** The argument list that [_stream_video] hands to [subprocess.Popen]. *)
Definition _stream_video (cwd video_url audio_url resolution bitrate : string)
  : list string :=
  let cmd_input :=
    if String.eqb video_url audio_url then ["-i"; video_url]
    else ["-i"; video_url; "-i"; audio_url] in
  let cmd_map :=
    if String.eqb video_url audio_url
    then ["-map"; "0:v:0"; "-map"; "0:a:0"]
    else ["-map"; "0:v:0"; "-map"; "1:a:0"] in
  ["ffmpeg"; "-re"] ++ cmd_input ++ cmd_map ++
  ["-c:v"; "libx264"; "-preset"; "ultrafast"; "-tune"; "zerolatency";
   "-pix_fmt"; "yuv420p";
   "-s"; resolution;
   "-b:v"; bitrate;
   "-c:a"; "aac"; "-b:a"; "128k";
   "-f"; "hls";
   "-hls_time"; "2";
   "-hls_list_size"; "5";
   "-hls_flags"; "delete_segments+append_list";
   "-hls_segment_filename"; HLS_DIR cwd +:+ "/stream%03d.ts";
   HLS_DIR cwd +:+ "/stream.m3u8"].

(** [f.endswith((".m3u8", ".ts"))]. *)
Definition is_segment_file (f : string) : bool :=
  endswith f ".m3u8" || endswith f ".ts".

(** The [for] loop of [_clean_hls_directory] over the listing: the names
    that are still in the directory afterwards.  [can_remove f] tells
    whether [os.remove] succeeds on [f]; when it raises, the loop is left
    and the exception is caught. *)
Fixpoint clean_loop (can_remove : string -> bool) (listing : list string)
  : list string :=
  match listing with
  | [] => []
  | f :: rest =>
      if is_segment_file f then
        if can_remove f then clean_loop can_remove rest
        else f :: rest
      else f :: clean_loop can_remove rest
  end.

(** [_clean_hls_directory]: [listdir] is what [os.listdir(HLS_DIR)] returns,
    or that it raises; [None] when the directory could not be listed, in
    which case nothing was touched. *)
Definition _clean_hls_directory (can_remove : string -> bool)
    (listdir : Outcome (list string)) : option (list string) :=
  match listdir with
  | Returns listing => Some (clean_loop can_remove listing)
  | Raises => None
  end.

End Hls.

(** ** The API: the public methods and the routes of [app.py] *)

Module Api.
Import Worker.

(** [self.command_queue.put(item)]. *)
Definition put (item : CmdData) (m : Manager) : Manager :=
  mkManager (ffmpeg_proc m) (playlist m) (current_index m)
    (command_queue m ++ [item]) (stop_event m) (stream_ready m).

Definition next (m : Manager) : Manager := put Next m.
Definition prev (m : Manager) : Manager := put Prev m.
Definition skip (video_num : Z) (m : Manager) : Manager :=
  put (Skip video_num) m.

(** [stop()], up to the [join], run as a whole: the event is set, ["stop"]
    is queued, and the process at hand, if any, is terminated by the
    caller.  The worker may look in between the statements. *)
Definition stop (m : Manager) : Manager * list Event :=
  (put Stop
     (mkManager (ffmpeg_proc m) (playlist m) (current_index m)
        (command_queue m) true (stream_ready m)),
   match ffmpeg_proc m with
   | Some p => [EvTerminate p]
   | None => []
   end).

(** The requests that reach the three API routes: [command] is any path
    segment, [video_num] any integer. *)
Inductive Request : Type :=
| ControlStream (command : string)
| ControlSkip (video_num : Z)
| StreamStatus.

Inductive Response : Type :=
| Done (command : string) (video : option Z)
| BadRequest (detail : string)
| Report (status : Status).

(** [control_stream]. *)
Definition control_stream (command : string) (m : Manager)
  : Response * Manager :=
  if String.eqb command "next" then (Done command None, next m)
  else if String.eqb command "prev" then (Done command None, prev m)
  else (BadRequest "Invalid command", m).

(** [control_skip]. *)
Definition control_skip (video_num : Z) (m : Manager) : Response * Manager :=
  if bool_decide (video_num < 1) then (BadRequest "Invalid video number", m)
  else (Done "skip" (Some video_num), skip video_num m).

(** [stream_status]. *)
Definition stream_status (m : Manager) : Response * Manager :=
  (Report (get_status m), m).

(** [hls_files]: the file that [FileResponse] is given for the [path] of a
    request to [/hls/{path:path}]. *)
Definition hls_files (cwd path : string) : string :=
  Hls.path_join (Hls.HLS_DIR cwd) path.

Definition handle (r : Request) (m : Manager) : Response * Manager :=
  match r with
  | ControlStream command => control_stream command m
  | ControlSkip video_num => control_skip video_num m
  | StreamStatus => stream_status m
  end.

(** The manager after a series of requests. *)
Definition serve (rs : list Request) (m : Manager) : Manager :=
  fold_left (fun m r => (handle r m).2) rs m.

(** What a request puts on the queue. *)
Definition accepted (r : Request) : list CmdData :=
  match r with
  | ControlStream command =>
      if String.eqb command "next" then [Next]
      else if String.eqb command "prev" then [Prev]
      else []
  | ControlSkip video_num =>
      if bool_decide (video_num < 1) then [] else [Skip video_num]
  | StreamStatus => []
  end.

(** A series of requests as the worker sees it. *)
Definition requests (rs : list Request) : Interference :=
  mkInterference (concat (accepted <$> rs)) false.

(** Every interference of an oracle, at the head of a turn or during
    monitoring, comes from requests to the routes. *)
Definition only_requests (oracle : list (Interference * Env)) : Prop :=
  Forall (fun turn =>
            (exists rs, turn.1 = requests rs) /\
            Forall (fun k => exists rs, meanwhile k = requests rs)
                   (ticks turn.2)) oracle.

End Api.

(** ** Counting in traces *)

Module Count.
Import Worker.

Definition is_launch (e : Event) : bool :=
  match e with
  | EvLaunch _ _ _ _ _ => true
  | _ => false
  end.

Definition is_fetch (e : Event) : bool :=
  match e with
  | EvFetch _ => true
  | _ => false
  end.

(** The processes launched in a trace. *)
Fixpoint launched (t : list Event) : list Proc :=
  match t with
  | [] => []
  | EvLaunch p _ _ _ _ :: t' => p :: launched t'
  | _ :: t' => launched t'
  end.

(** The commands that arrive during the first [k] polls. *)
Definition arrived (k : nat) (tk : list Tick) : list CmdData :=
  concat ((fun t => arrivals (meanwhile t)) <$> take k tk).

End Count.

Import Catalog Worker.

(** ** Proof steps *)

Ltac break_match :=
  match goal with
  | |- context [match ?x with _ => _ end] =>
      lazymatch x with
      | context [match _ with _ => _ end] => fail
      | _ => destruct x eqn:?
      end
  end.

Ltac unfold_worker :=
  unfold run, select_video, check_commands,
    validate_playlist, handle_boundaries, start_stream, wait_for_stream,
    on_exception, cleanup, terminate_if_any, ctl_of, state_of, trace_of, frame_of,
    set_stream_ready, set_command, set_current_index, set_playlist,
    set_command_queue, set_ffmpeg_proc, sleep, emit, call, update, get,
    get_command, interfere, bind, ret, continue_, break_, raise_, starve.

Ltac prop_bools :=
  repeat match goal with
  | H : bool_decide _ = true |- _ => apply bool_decide_eq_true in H
  | H : bool_decide _ = false |- _ => apply bool_decide_eq_false in H
  | H : negb _ = true |- _ => apply negb_true_iff in H
  | H : negb _ = false |- _ => apply negb_false_iff in H
  | H : is_nil ?l = true |- _ => destruct l; [clear H | discriminate H]
  | H : is_nil ?l = false |- _ => destruct l; [discriminate H | clear H]
  end.

Ltac split_tracked := split; [| split; [| split; [| split]]].

Ltac expose :=
  unfold ctl_of, state_of, trace_of, frame_of in *;
  cbn [fst snd] in *; cbv beta iota in *.

(** * The quality catalog *)

Lemma preset_720p :
  QUALITY_PRESETS !! "720p" =
  Some (mkPreset "bestvideo[height<=720]+bestaudio/best[height<=720]"
                 "1280x720" "2500k").
Proof. reflexivity. Qed.

(** C9. A quality identifier that the catalog does not hold gives the
    manager the configuration of "720p": the construction does not fail
    with a [KeyError], and the result is the one "720p" itself gives, with
    that preset's format selector, resolution and bitrate. *)
Theorem unknown_quality_defaults_to_720p (u quality_key : string) :
  QUALITY_PRESETS !! quality_key = None ->
  init_config u quality_key = init_config u "720p" /\
  init_config u quality_key =
    Some (mkConfig u
            (mkPreset "bestvideo[height<=720]+bestaudio/best[height<=720]"
                      "1280x720" "2500k")).
Proof.
  intros Hnone. unfold init_config.
  destruct (decide (is_Some (QUALITY_PRESETS !! quality_key))) as [Hs | _].
  - rewrite Hnone in Hs. destruct Hs as [p Hp]. discriminate Hp.
  - split; reflexivity.
Qed.

Lemma unknown_quality_defaults_to_720p_witness :
  QUALITY_PRESETS !! "9999p" = None /\
  init_config "PL" "9999p" = init_config "PL" "720p" /\
  init_config "PL" "9999p" =
    Some (mkConfig "PL"
            (mkPreset "bestvideo[height<=720]+bestaudio/best[height<=720]"
                      "1280x720" "2500k")).
Proof.
  split; [reflexivity |].
  apply (unknown_quality_defaults_to_720p "PL" "9999p"). reflexivity.
Defined.

(** A known identifier selects its own preset. *)
Lemma known_quality_selects_preset (u quality_key : string) (p : Preset) :
  QUALITY_PRESETS !! quality_key = Some p ->
  init_config u quality_key = Some (mkConfig u p).
Proof.
  intros Hp. unfold init_config.
  destruct (decide (is_Some (QUALITY_PRESETS !! quality_key))) as [_ | Hn].
  - rewrite Hp. reflexivity.
  - exfalso. apply Hn. rewrite Hp. eauto.
Qed.

(** * The startup probe *)

(** While the loop has not returned, the two flags are the disjunction of
    what the iterations saw. *)
Lemma probe_loop_app timeout proc (pre rest : list ProbeObs) :
  forall m t,
    probe_loop timeout proc m t pre = None ->
    probe_loop timeout proc m t (pre ++ rest) =
    probe_loop timeout proc (m || existsb m3u8_nonempty pre)
      (t || existsb ts_nonempty pre) rest.
Proof.
  induction pre as [| o pre IH]; intros m t Hrun.
  - cbn. rewrite !orb_false_r. reflexivity.
  - cbn in Hrun |- *.
    destruct (bool_decide (elapsed o < timeout)); [| discriminate].
    destruct m, t, (m3u8_nonempty o), (ts_nonempty o); cbn in Hrun |- *;
      try discriminate;
      destruct (bool_decide (is_Some proc) && proc_exited o);
      try discriminate;
      rewrite (IH _ _ Hrun); cbn; reflexivity.
Qed.

(** A loop that reports a dead process saw the exit in an iteration by which
    the two files had not both been seen. *)
Lemma probe_loop_died timeout proc (obs : list ProbeObs) :
  forall m t,
    probe_loop timeout proc m t obs = Some Died ->
    exists pre o post,
      obs = pre ++ o :: post /\
      is_Some proc /\
      proc_exited o = true /\
      (m || existsb m3u8_nonempty (pre ++ [o])) &&
      (t || existsb ts_nonempty (pre ++ [o])) = false.
Proof.
  induction obs as [| o obs IH]; intros m t Hrun; [discriminate |].
  cbn in Hrun.
  destruct (bool_decide (elapsed o < timeout)); [| discriminate].
  destruct ((if negb m && m3u8_nonempty o then true else m) &&
            (if negb t && ts_nonempty o then true else t)) eqn:Hboth;
    [discriminate |].
  destruct (bool_decide (is_Some proc)) eqn:Hproc; cbn in Hrun.
  - destruct (proc_exited o) eqn:Hex.
    + exists [], o, obs. apply bool_decide_eq_true in Hproc.
      repeat split; try done. cbn. rewrite !orb_false_r.
      destruct m, t, (m3u8_nonempty o), (ts_nonempty o); cbn in *; congruence.
    + destruct (IH _ _ Hrun) as (pre & o' & post & -> & Hp & Hex' & Hfl).
      exists (o :: pre), o', post. repeat split; try done.
      cbn. destruct m, t, (m3u8_nonempty o), (ts_nonempty o);
        cbn in *; congruence.
  - destruct (IH _ _ Hrun) as (pre & o' & post & -> & Hp & Hex' & Hfl).
    apply bool_decide_eq_false in Hproc. contradiction.
Qed.

(** C10. When, by some iteration that the loop reaches within the time
    limit, the manifest and the first chunk have both been seen non-empty,
    [_wait_for_stream] returns [True] even if [poll()] reports in that same
    iteration that the process has exited: the files are tested first.  The
    probe reports a premature exit only from an iteration up to which the
    two files had not both been seen. *)
Theorem probe_tests_files_before_exit :
  (forall (proc : option Proc) (pre : list ProbeObs) (o : ProbeObs)
          (post : list ProbeObs),
      probe_loop default_timeout proc false false pre = None ->
      elapsed o < default_timeout ->
      existsb m3u8_nonempty (pre ++ [o]) = true ->
      existsb ts_nonempty (pre ++ [o]) = true ->
      proc_exited o = true ->
      _wait_for_stream proc (pre ++ o :: post) = Some true) /\
  (forall (proc : option Proc) (obs : list ProbeObs),
      probe_loop default_timeout proc false false obs = Some Died ->
      _wait_for_stream proc obs = Some false /\
      exists pre o post,
        obs = pre ++ o :: post /\
        proc_exited o = true /\
        existsb m3u8_nonempty (pre ++ [o]) &&
        existsb ts_nonempty (pre ++ [o]) = false).
Proof.
  split.
  - intros proc pre o post Hrun Ht Hm Hts _.
    unfold _wait_for_stream. rewrite (probe_loop_app _ _ _ _ _ _ Hrun).
    rewrite existsb_app in Hm, Hts. cbn in Hm, Hts |- *.
    rewrite orb_false_r in Hm, Hts.
    rewrite (bool_decide_eq_true_2 _ Ht).
    destruct (existsb m3u8_nonempty pre), (existsb ts_nonempty pre),
      (m3u8_nonempty o), (ts_nonempty o); cbn in *; congruence.
  - intros proc obs Hrun. split.
    + unfold _wait_for_stream. rewrite Hrun. reflexivity.
    + destruct (probe_loop_died _ _ _ _ _ Hrun)
        as (pre & o & post & Hobs & _ & Hex & Hfl).
      exists pre, o, post. cbn in Hfl. done.
Qed.

Lemma probe_tests_files_before_exit_witness :
  _wait_for_stream (Some 7%nat)
    ([mkProbeObs 0 true false false] ++ mkProbeObs 500 false true true :: [])
  = Some true /\
  _wait_for_stream (Some 7%nat)
    [mkProbeObs 0 true false false; mkProbeObs 500 false false true]
  = Some false.
Proof.
  split.
  - apply (proj1 probe_tests_files_before_exit (Some 7%nat)
             [mkProbeObs 0 true false false] (mkProbeObs 500 false true true)
             []); try reflexivity.
  - apply (proj2 probe_tests_files_before_exit (Some 7%nat)
             [mkProbeObs 0 true false false; mkProbeObs 500 false false true]).
    reflexivity.
Defined.

(** * The worker: what every run keeps *)

Lemma select_video_summary cfg env f :
  let r := select_video cfg env f in
  ctl_of r <> Starved /\
  ffmpeg_proc (state_of r) = ffmpeg_proc (self f) /\
  stop_event (state_of r) = stop_event (self f) /\
  stream_ready (state_of r) = stream_ready (self f) /\
  Forall passive (trace_of r) /\
  (playlist (self f) <> [] -> playlist (state_of r) = playlist (self f)) /\
  (ctl_of r = Normal tt ->
     0 <= current_index (state_of r) < Z.of_nat (length (playlist (state_of r)))) /\
  (ctl_of r = Break -> exists q, command_queue (self f) = Stop :: q) /\
  (exists pre, command_queue (self f) = pre ++ command_queue (state_of r)).
Proof.
  destruct f as [[pr pl i q st rd] c].
  unfold_worker. cbn.
  repeat (break_match; cbn).
  all: repeat split; intros; try discriminate; try done;
    try (repeat constructor; done);
    try (by eexists []); try (by eexists [_]); eauto.
  all: prop_bools; cbn [length] in *; try done; try lia.
Qed.

Lemma start_stream_summary cfg env f :
  0 <= current_index (self f) < Z.of_nat (length (playlist (self f))) ->
  let r := start_stream cfg env f in
  ctl_of r <> Break /\
  playlist (state_of r) = playlist (self f) /\
  current_index (state_of r) = current_index (self f) /\
  command_queue (state_of r) = command_queue (self f) /\
  stop_event (state_of r) = stop_event (self f) /\
  (exists u t, trace_of r = EvStart (current_index (self f)) u :: t /\
     playlist (self f) !! Z.to_nat (current_index (self f)) = Some u /\
     Forall (fun e => forall i v, e <> EvStart i v) t) /\
  stream_ready (state_of r) = ready_after (stream_ready (self f)) (trace_of r) /\
  (forall b, launches_unready b (trace_of r) = true) /\
  (forall prev, sets_follow_probe prev (trace_of r) = true) /\
  (forall prev, clears_at_launch prev (trace_of r) = true) /\
  (ctl_of r = Normal tt -> is_Some (ffmpeg_proc (state_of r))).
Proof.
  destruct f as [[pr pl i q st rd] c]. cbn [self current_index playlist].
  intros Hi.
  assert (exists u, subscript pl i = Some u /\ pl !! Z.to_nat i = Some u)
    as (u & Hsub & Hu).
  { unfold subscript. rewrite bool_decide_eq_true_2 by done.
    destruct (pl !! Z.to_nat i) as [u|] eqn:Hu; [eauto |].
    apply lookup_ge_None in Hu. lia. }
  unfold_worker. cbn. rewrite Hsub. cbn.
  repeat (break_match; cbn).
  all: repeat split; intros; try discriminate; try done; eauto.
  all: try (eexists _, _; split; [reflexivity|]; split; [done|]; repeat constructor; done).
  all: try (destruct prev as [[]|]; try destruct ok; reflexivity).
  all: try (destruct b; reflexivity).
Qed.

Lemma ready_after_app t1 : forall r t2,
  ready_after r (t1 ++ t2) = ready_after (ready_after r t1) t2.
Proof.
  induction t1 as [| e t1 IH]; intros r t2; [reflexivity |].
  destruct e; cbn; apply IH.
Qed.

Lemma launches_unready_app t1 : forall r t2,
  launches_unready r (t1 ++ t2) =
  launches_unready r t1 && launches_unready (ready_after r t1) t2.
Proof.
  induction t1 as [| e t1 IH]; intros r t2; [reflexivity |].
  destruct e; cbn; rewrite ?IH; try reflexivity.
  rewrite andb_assoc. reflexivity.
Qed.

Lemma sets_follow_probe_app t1 : forall prev t2,
  (forall p, sets_follow_probe p t2 = true) ->
  sets_follow_probe prev (t1 ++ t2) = sets_follow_probe prev t1.
Proof.
  induction t1 as [| e t1 IH]; intros prev t2 H2; cbn.
  - apply H2.
  - rewrite IH by done. reflexivity.
Qed.

Lemma clears_at_launch_app t1 : forall prev t2,
  (forall p, clears_at_launch p t2 = true) ->
  clears_at_launch prev (t1 ++ t2) = clears_at_launch prev t1.
Proof.
  induction t1 as [| e t1 IH]; intros prev t2 H2; cbn.
  - apply H2.
  - rewrite IH by done. reflexivity.
Qed.

Lemma well_behaved_app t1 t2 :
  well_behaved t1 -> well_behaved t2 -> well_behaved (t1 ++ t2).
Proof.
  intros (L1 & S1 & C1) (L2 & S2 & C2). split; [| split].
  - intros b. rewrite launches_unready_app, L1, L2. reflexivity.
  - intros prev. rewrite sets_follow_probe_app by done. apply S1.
  - intros prev. rewrite clears_at_launch_app by done. apply C1.
Qed.

Lemma passive_ready_after t r : Forall passive t -> ready_after r t = r.
Proof.
  induction 1 as [| e t He _ IH]; [reflexivity |].
  destruct e; cbn in *; try contradiction; apply IH.
Qed.

Lemma passive_well_behaved t : Forall passive t -> well_behaved t.
Proof.
  induction 1 as [| e t He _ (IHl & IHs & IHc)]; [repeat split; reflexivity |].
  split; [intros b | split; intros prev];
    destruct e; cbn in *; try contradiction;
    rewrite ?IHl, ?IHs, ?IHc; reflexivity.
Qed.

Lemma passive_no_start t i u : Forall passive t -> EvStart i u ∉ t.
Proof.
  intros Hp Hin. rewrite Forall_forall in Hp. apply (Hp _ Hin).
Qed.

Lemma wait_for_finish_summary (tk : list Tick) :
  forall f,
    let r := wait_for_finish tk f in
    (ctl_of r = Normal tt \/ ctl_of r = Raised \/ ctl_of r = Starved) /\
    ffmpeg_proc (state_of r) = ffmpeg_proc (self f) /\
    playlist (state_of r) = playlist (self f) /\
    current_index (state_of r) = current_index (self f) /\
    stream_ready (state_of r) = stream_ready (self f) /\
    command (frame_of r) = command f /\
    Forall passive (trace_of r) /\
    (stop_pending (state_of r) = true ->
       stop_pending (self f) = true \/
       existsb (fun k => asks_stop (meanwhile k)) tk = true).
Proof.
  induction tk as [| k tk IH]; intros [[pr pl i q st rd] c].
  - cbn. repeat split; auto.
  - destruct k as [[arr ss] ex]. 
    assert (Hpend : forall b, stop_pending (mkManager pr pl i (q ++ arr) (st || ss) b) = true ->
       stop_pending (mkManager pr pl i q st b) = true \/
       asks_stop (mkInterference arr ss) = true).
    { unfold stop_pending, asks_stop. cbn. intros b H.
      apply orb_true_iff in H as [H | H].
      - apply orb_true_iff in H as [-> | ->]; [left | right]; reflexivity.
      - apply bool_decide_eq_true in H. apply elem_of_app in H as [H | H].
        + left. rewrite (bool_decide_eq_true_2 _ H). apply orb_true_r.
        + right. rewrite (bool_decide_eq_true_2 _ H). apply orb_true_r. }
    assert (Hpend' : forall b, stop_pending (mkManager pr pl i (q ++ arr) (st || ss) b) = true ->
       stop_pending (mkManager pr pl i q st b) = true \/
       asks_stop (mkInterference arr ss) || existsb (fun k => asks_stop (meanwhile k)) tk = true).
    { intros b H. destruct (Hpend _ H) as [H'|H']; [by left|].
      right. rewrite H'. reflexivity. }
    cbn [wait_for_finish]. unfold_worker. cbn.
    destruct pr as [p|]; cbn; [| by repeat split; auto].
    destruct ex; cbn; [by repeat split; auto |].
    destruct (st || ss) eqn:Hst; cbn.
    { repeat split; auto. repeat constructor. }
    destruct (q ++ arr) eqn:Hq; cbn.
    2:{ repeat split; auto. repeat constructor. }
    match goal with |- context [wait_for_finish tk ?f] =>
      specialize (IH f); destruct (wait_for_finish tk f) as [[c' f'] t'] end.
    cbn in IH |- *. destruct IH as (Hc & ? & ? & ? & ? & ? & Ht & Hp).
    assert (Hp' : stop_pending (self f') = true ->
       stop_pending (mkManager (Some p) pl i q st rd) = true \/
       asks_stop (mkInterference arr ss) ||
         existsb (fun k => asks_stop (meanwhile k)) tk = true).
    { intros Hf'. destruct (Hp Hf') as [Hp' | Hp'].
      - apply Hpend'. exact Hp'.
      - right. rewrite Hp'. apply orb_true_r. }
    unfold ctl_of, state_of, frame_of, trace_of in *. cbn in *.
    destruct Hc as [-> | [-> | ->]]; cbn;
      repeat split; auto; constructor; done.
Qed.

Lemma tracked_seq asked s0 s1 s2 t1 t2 :
  tracked asked s0 s1 t1 -> tracked asked s1 s2 t2 ->
  tracked asked s0 s2 (t1 ++ t2).
Proof.
  intros (P1 & E1 & R1 & W1 & S1) (P2 & E2 & R2 & W2 & S2).
  split_tracked.
  - intros H0. rewrite P2; rewrite P1; done.
  - intros i u H. apply elem_of_app in H as [H | H]; [| by apply E2].
    destruct (E1 _ _ H) as [Hr Hl].
    rewrite P2; [done |]. intros Hnil. rewrite Hnil in Hr. cbn in Hr. lia.
  - rewrite ready_after_app, <- R1. exact R2.
  - apply well_behaved_app; done.
  - intros H. destruct (S2 H) as [H' | H']; [| by right]. by apply S1.
Qed.

Lemma tracked_weaken (asked asked' : Prop) s s' t :
  (asked -> asked') -> tracked asked s s' t -> tracked asked' s s' t.
Proof.
  intros Hw (P & E & R & W & S). split_tracked; try done.
  intros H. destruct (S H); auto.
Qed.

Lemma tracked_passive asked s s' t :
  (playlist s <> [] -> playlist s' = playlist s) ->
  stream_ready s' = stream_ready s ->
  (stop_pending s' = true -> stop_pending s = true \/ asked) ->
  Forall passive t ->
  tracked asked s s' t.
Proof.
  intros P R S Ht. split_tracked; try done.
  - intros i u H. exfalso. by eapply passive_no_start.
  - by rewrite passive_ready_after.
  - by apply passive_well_behaved.
Qed.

Lemma stop_pending_suffix s s' pre :
  stop_event s' = stop_event s ->
  command_queue s = pre ++ command_queue s' ->
  stop_pending s' = true -> stop_pending s = true.
Proof.
  unfold stop_pending. intros -> -> H.
  apply orb_true_iff in H as [-> | H]; [reflexivity |].
  apply bool_decide_eq_true in H.
  rewrite (bool_decide_eq_true_2 (Stop ∈ pre ++ command_queue s')).
  - apply orb_true_r.
  - apply elem_of_app. by right.
Qed.

Lemma select_video_tracked cfg env f :
  let r := select_video cfg env f in
  tracked False (self f) (state_of r) (trace_of r) /\
  ctl_of r <> Starved /\
  ffmpeg_proc (state_of r) = ffmpeg_proc (self f) /\
  (ctl_of r = Normal tt ->
     0 <= current_index (state_of r)
       < Z.of_nat (length (playlist (state_of r)))) /\
  (ctl_of r = Break -> exists q, command_queue (self f) = Stop :: q).
Proof.
  destruct (select_video_summary cfg env f)
    as (Hc & Hp & Hs & Hr & Ht & Hpl & Hi & Hb & pre & Hq).
  cbv zeta. split; [| by auto].
  apply tracked_passive; try done.
  intros H. left. by eapply stop_pending_suffix.
Qed.

Lemma start_stream_tracked cfg env f :
  0 <= current_index (self f) < Z.of_nat (length (playlist (self f))) ->
  let r := start_stream cfg env f in
  tracked False (self f) (state_of r) (trace_of r) /\
  ctl_of r <> Break /\
  (ctl_of r = Normal tt -> is_Some (ffmpeg_proc (state_of r))).
Proof.
  intros Hi.
  destruct (start_stream_summary cfg env f Hi)
    as (Hc & Hpl & Hidx & Hq & Hs & (u & t & Ht & Hu & Hno) & Hr & Hl & Hsf
        & Hcl & Hp).
  cbv zeta. split; [| by auto].
  split_tracked; try done.
  - intros i v Hin. rewrite Ht in Hin. apply elem_of_cons in Hin as [Heq | Hin].
    + injection Heq as -> ->. rewrite Hpl. done.
    + rewrite Forall_forall in Hno. exfalso. by eapply (Hno _ Hin).
  - intros H. left. unfold stop_pending in *. by rewrite <- Hq, <- Hs.
Qed.

Lemma wait_for_finish_tracked tk f :
  let r := wait_for_finish tk f in
  tracked (existsb (fun k => asks_stop (meanwhile k)) tk = true)
    (self f) (state_of r) (trace_of r) /\
  (ctl_of r = Normal tt \/ ctl_of r = Raised \/ ctl_of r = Starved) /\
  ffmpeg_proc (state_of r) = ffmpeg_proc (self f).
Proof.
  destruct (wait_for_finish_summary tk f)
    as (Hc & Hp & Hpl & Hi & Hr & Hcmd & Ht & Hs).
  cbv zeta. split; [| by auto].
  apply tracked_passive; done.
Qed.

Lemma on_exception_summary f :
  let r := on_exception f in
  ctl_of r = Normal tt /\ frame_of r = f /\
  trace_of r =
    match ffmpeg_proc (self f) with
    | Some p => [EvTerminate p]
    | None => []
    end ++ [EvSleep 10000].
Proof.
  destruct f as [[pr pl i q st rd] c]. unfold_worker. cbn.
  destruct pr; cbn; done.
Qed.

Lemma cleanup_summary f :
  let r := cleanup f in
  ctl_of r = Normal tt /\
  ffmpeg_proc (state_of r) = None /\
  playlist (state_of r) = playlist (self f) /\
  command_queue (state_of r) = command_queue (self f) /\
  stop_event (state_of r) = stop_event (self f) /\
  stream_ready (state_of r) = stream_ready (self f) /\
  current_index (state_of r) =
    (if falsy (command f) && is_nil (command_queue (self f)) &&
        negb (stop_event (self f))
     then current_index (self f) + 1 else current_index (self f)) /\
  trace_of r = if is_nil (command_queue (self f)) then [EvSleep 3000] else [].
Proof.
  destruct f as [[pr pl i q st rd] c]. unfold_worker. cbn.
  destruct (falsy c && is_nil q && negb st); cbn; destruct (is_nil q); cbn; done.
Qed.

(** What the [try] suite keeps. *)
Lemma attempt_tracked cfg env f :
  let r := attempt cfg env f in
  tracked (existsb (fun k => asks_stop (meanwhile k)) (ticks env) = true)
    (self f) (state_of r) (trace_of r) /\
  (ctl_of r = Break -> exists q, command_queue (self f) = Stop :: q).
Proof.
  unfold attempt. cbv [bind].
  pose proof (select_video_tracked cfg env f) as Hsel.
  destruct (select_video cfg env f) as [[c1 f1] t1]. expose.
  destruct Hsel as (T1 & Hc1 & Hp1 & Hi1 & Hb1).
  apply (tracked_weaken False
           (existsb (fun k => asks_stop (meanwhile k)) (ticks env) = true))
    in T1; [| done].
  destruct c1 as [[] | | | |]; expose; try (split; [exact T1 | done]).
  pose proof (start_stream_tracked cfg env f1 (Hi1 eq_refl)) as Hst.
  destruct (start_stream cfg env f1) as [[c2 f2] t2]. expose.
  destruct Hst as (T2 & Hc2 & Hp2).
  apply (tracked_weaken False
           (existsb (fun k => asks_stop (meanwhile k)) (ticks env) = true))
    in T2; [| done].
  pose proof (tracked_seq _ _ _ _ _ _ T1 T2) as T12.
  destruct c2 as [[] | | | |]; expose; try (split; [exact T12 | done]).
  pose proof (wait_for_finish_tracked (ticks env) f2) as Hw.
  destruct (wait_for_finish (ticks env) f2) as [[c3 f3] t3]. expose.
  destruct Hw as (T3 & Hc3 & Hp3).
  pose proof (tracked_seq _ _ _ _ _ _ T12 T3) as T123.
  rewrite <- app_assoc in T123.
  split; [exact T123 |]. intros ->. destruct Hc3 as [? | [? | ?]]; discriminate.
Qed.

Lemma on_exception_tracked asked f :
  let r := on_exception f in
  ctl_of r = Normal tt /\ tracked asked (self f) (state_of r) (trace_of r).
Proof.
  destruct (on_exception_summary f) as (Hc & Hf & Ht). cbv zeta.
  split; [done |]. unfold state_of. unfold frame_of in Hf. rewrite Hf.
  apply tracked_passive; try done; [by left |].
  rewrite Ht. destruct (ffmpeg_proc (self f)); repeat constructor.
Qed.

Lemma cleanup_tracked asked f :
  let r := cleanup f in
  ctl_of r = Normal tt /\ tracked asked (self f) (state_of r) (trace_of r).
Proof.
  destruct (cleanup_summary f) as (Hc & Hp & Hpl & Hq & Hs & Hr & Hi & Ht).
  cbv zeta. split; [done |].
  apply tracked_passive; try done.
  - intros H. left. unfold stop_pending in *. by rewrite <- Hq, <- Hs.
  - rewrite Ht. destruct (is_nil _); repeat constructor.
Qed.

Lemma cycle_tracked cfg env s :
  let r := run (cycle cfg env) s in
  tracked (existsb (fun k => asks_stop (meanwhile k)) (ticks env) = true)
    s (state_of r) (trace_of r) /\
  ctl_of r <> Raised /\
  (ctl_of r = Break -> exists q, command_queue s = Stop :: q).
Proof.
  unfold run, cycle, try_except_finally. cbv [bind set_command]. cbn [self].
  pose proof (attempt_tracked cfg env (mkFrame s None)) as Ha.
  destruct (attempt cfg env (mkFrame s None)) as [[c1 f1] t1]. expose.
  destruct Ha as (T1 & Hb).
  set (asked := existsb _ _ = true) in *.
  pose proof (on_exception_tracked asked f1) as He.
  destruct c1 as [[] | | | |]; expose.
  5: by (split; [exact T1 | split; done]).
  4: { destruct (on_exception f1) as [[c2 f2] t2]. expose.
       destruct He as (-> & T2).
       pose proof (cleanup_tracked asked f2) as Hc.
       destruct (cleanup f2) as [[c3 f3] t3]. expose.
       destruct Hc as (-> & T3). cbn [app].
       split; [| split; done].
       eapply tracked_seq; [exact T1 |]. eapply tracked_seq; done. }
  all: pose proof (cleanup_tracked asked f1) as Hc;
    destruct (cleanup f1) as [[c3 f3] t3]; expose;
    destruct Hc as (-> & T3); cbn [app];
    (split; [| split; done]);
    eapply tracked_seq; done.
Qed.

Lemma tracked_refl asked s : tracked asked s s [].
Proof.
  apply tracked_passive; try done. by left.
Qed.

Lemma interfere_tracked i f :
  tracked (asks_stop i = true) (self f)
    (state_of (interfere i f)) (trace_of (interfere i f)).
Proof.
  destruct f as [[pr pl ix q st rd] c]. destruct i as [arr ss].
  apply tracked_passive; try done. cbn.
  unfold stop_pending, asks_stop. cbn. intros H.
  apply orb_true_iff in H as [H | H].
  - apply orb_true_iff in H as [-> | ->]; [left | right]; reflexivity.
  - apply bool_decide_eq_true in H. apply elem_of_app in H as [H | H].
    + left. rewrite (bool_decide_eq_true_2 _ H). apply orb_true_r.
    + right. rewrite (bool_decide_eq_true_2 _ H). apply orb_true_r.
Qed.

Lemma cycle_forgets_command cfg env f :
  cycle cfg env f = run (cycle cfg env) (self f).
Proof. reflexivity. Qed.

Lemma worker_tracked cfg (oracle : list (Interference * Env)) :
  forall f,
    let r := _stream_worker cfg oracle f in
    exists s1 t,
      tracked (existsb turn_asks_stop oracle = true) (self f) s1 t /\
      ((ctl_of r = Starved /\ state_of r = s1 /\ trace_of r = t) \/
       (ctl_of r = Normal tt /\ state_of r = with_ready s1 /\
        trace_of r = t ++ [EvReady true] /\
        (stop_pending (self f) = true \/
         existsb turn_asks_stop oracle = true))).
Proof.
  induction oracle as [| [i env] oracle IH]; intros f; cbv zeta.
  - exists (self f), []. split; [apply tracked_refl |]. left. done.
  - set (asked := existsb turn_asks_stop ((i, env) :: oracle) = true).
    assert (A1 : asks_stop i = true -> asked).
    { unfold asked, turn_asks_stop. cbn. by intros ->. }
    assert (A2 : existsb (fun k => asks_stop (meanwhile k)) (ticks env) = true
                 -> asked).
    { unfold asked, turn_asks_stop. cbn. intros ->.
      by rewrite orb_true_r. }
    assert (A3 : existsb turn_asks_stop oracle = true -> asked).
    { unfold asked. cbn. intros ->. by rewrite orb_true_r. }
    clearbody asked.
    cbn [_stream_worker]. cbv [bind get set_stream_ready update emit].
    pose proof (interfere_tracked i f) as Ti.
    apply (tracked_weaken _ asked) in Ti; [| done].
    destruct (interfere i f) as [[c0 f0] t0] eqn:Hint.
    assert (c0 = Normal tt /\ t0 = []) as [-> ->].
    { unfold interfere, update in Hint. by injection Hint as <- <- <-. }
    expose.
    destruct (stop_event (self f0)) eqn:Hstop; expose.
    + exists (self f0), []. split; [exact Ti |]. right.
      repeat split; try done.
      destruct Ti as (_ & _ & _ & _ & S). apply S.
      unfold stop_pending. by rewrite Hstop.
    + unfold iteration. rewrite cycle_forgets_command.
      pose proof (cycle_tracked cfg env (self f0)) as Hc.
      destruct (run (cycle cfg env) (self f0)) as [[c1 f1] t1]. expose.
      destruct Hc as (T1 & Hnr & Hb).
      apply (tracked_weaken _ asked) in T1; [| done].
      pose proof (tracked_seq _ _ _ _ _ _ Ti T1) as T01. cbn [app] in T01.
      destruct c1 as [[] | | | |]; expose; cbn [app].
      4: done.
      4: { exists (self f1), t1. split; [exact T01 |]. left. done. }
      3: { exists (self f1), t1. split; [exact T01 |]. right.
           repeat split; try done.
           destruct (Hb eq_refl) as [q Hq].
           destruct Ti as (_ & _ & _ & _ & S). apply S.
           unfold stop_pending. rewrite Hq.
           rewrite bool_decide_eq_true_2 by constructor.
           apply orb_true_r. }
      all: specialize (IH f1); cbv zeta in IH;
        destruct (_stream_worker cfg oracle f1) as [[c2 f2] t2]; expose;
        destruct IH as (s1 & t & T2 & Hres);
        apply (tracked_weaken _ asked) in T2; [| done];
        pose proof (tracked_seq _ _ _ _ _ _ T01 T2) as T;
        exists s1, (t1 ++ t); (split; [exact T |]);
        destruct Hres as [(-> & -> & ->) | (-> & -> & -> & Hreq)];
          [left; done | right];
        (split; [done | split; [done | split; [apply app_assoc |]]]);
        (destruct Hreq as [Hreq | Hreq];
          [destruct T01 as (_ & _ & _ & _ & S); by apply S
          | right; by apply A3]).
Qed.

(** * The shape of a cycle *)

(** What step 3 emits and how it ends. *)
Lemma start_stream_detail cfg env f :
  let r := start_stream cfg env f in
  command_queue (state_of r) = command_queue (self f) /\
  playlist (state_of r) = playlist (self f) /\
  Forall (fun e => Count.is_fetch e = false) (trace_of r) /\
  (Count.launched (trace_of r) = [] \/
   exists p,
     Count.launched (trace_of r) = [p] /\
     (ctl_of r = Normal tt /\ ffmpeg_proc (state_of r) = Some p \/
      ctl_of r = Continue /\ EvTerminate p ∈ trace_of r \/
      ctl_of r = Raised /\ ffmpeg_proc (state_of r) = Some p \/
      ctl_of r = Starved)) /\
  (ctl_of r = Normal tt ->
   stream_ready (state_of r) = true /\ is_Some (ffmpeg_proc (state_of r))).
Proof.
  destruct f as [[pr pl i q st rd] c].
  unfold_worker. cbn.
  repeat (break_match; cbn).
  all: repeat split; intros; try discriminate; try done; auto.
  all: try (repeat constructor; done).
  all: try (by left).
  all: right; eexists; split; [reflexivity |].
  all: try (left; done).
  all: try (right; right; right; done).
  all: try (right; right; left; done).
  all: right; left; split; [done |]; repeat (constructor || (right; constructor)).
Qed.

Lemma starved_or_not {A} (c : Ctl A) : c = Starved \/ c <> Starved.
Proof. destruct c; auto; right; discriminate. Qed.

(** The [try] suite, phase by phase. *)
Lemma attempt_shape cfg env f :
  let s1 := select_video cfg env f in
  let s2 := start_stream cfg env (frame_of s1) in
  let s3 := wait_for_finish (ticks env) (frame_of s2) in
  attempt cfg env f =
    match ctl_of s1 with
    | Normal _ =>
        match ctl_of s2 with
        | Normal _ =>
            (ctl_of s3, frame_of s3, trace_of s1 ++ trace_of s2 ++ trace_of s3)
        | _ => (ctl_of s2, frame_of s2, trace_of s1 ++ trace_of s2)
        end
    | _ => s1
    end.
Proof.
  cbv zeta. unfold attempt. cbv [bind].
  destruct (select_video cfg env f) as [[c1 f1] t1]. expose.
  destruct c1 as [[] | | | |]; try reflexivity.
  destruct (start_stream cfg env f1) as [[c2 f2] t2]. expose.
  destruct c2 as [[] | | | |]; try reflexivity.
  destruct (wait_for_finish (ticks env) f2) as [[c3 f3] t3]. expose.
  by destruct c3.
Qed.

(** The cycle: the [try] suite, then the handler if it raised, then the
    [finally] suite. *)
Lemma cycle_shape cfg env s :
  let a := attempt cfg env (mkFrame s None) in
  let r := run (cycle cfg env) s in
  (ctl_of a = Starved -> r = a) /\
  (ctl_of a <> Starved ->
   frame_of r = frame_of (cleanup (frame_of a)) /\
   ctl_of r = match ctl_of a with Raised => Normal tt | c => c end /\
   trace_of r =
     trace_of a ++
     match ctl_of a with
     | Raised =>
         match ffmpeg_proc (state_of a) with
         | Some p => [EvTerminate p]
         | None => []
         end ++ [EvSleep 10000]
     | _ => []
     end ++ trace_of (cleanup (frame_of a))).
Proof.
  cbv zeta. unfold run, cycle, try_except_finally. cbv [bind set_command].
  cbn [self].
  destruct (attempt cfg env (mkFrame s None)) as [[c1 f1] t1]. expose.
  destruct (on_exception_summary f1) as (He1 & He2 & He3).
  destruct (cleanup_summary f1) as (Hc & _).
  split; [by intros -> |]. intros Hns.
  destruct c1 as [[] | | | |]; expose; try done.
  - destruct (cleanup f1) as [[c3 f3] t3]. expose. by subst c3.
  - destruct (cleanup f1) as [[c3 f3] t3]. expose. by subst c3.
  - destruct (cleanup f1) as [[c3 f3] t3]. expose. by subst c3.
  - destruct (on_exception f1) as [[c2 f2] t2]. expose. subst c2 f2 t2.
    destruct (cleanup f1) as [[c3 f3] t3]. expose. by subst c3.
Qed.

(** The manager at the moment the stream goes live. *)
Lemma go_live_state cfg env f0 f1 t1 :
  go_live cfg env f0 = (Normal tt, f1, t1) ->
  stream_ready (self f1) = true /\
  0 <= current_index (self f1) < Z.of_nat (length (playlist (self f1))) /\
  is_Some (ffmpeg_proc (self f1)).
Proof.
  unfold go_live. cbv [bind].
  pose proof (select_video_tracked cfg env f0) as Hsel.
  destruct (select_video cfg env f0) as [[c a] ta]. expose.
  destruct Hsel as (_ & _ & _ & Hi & _).
  destruct c as [[] | | | |]; try discriminate.
  specialize (Hi eq_refl).
  pose proof (start_stream_summary cfg env a Hi) as Hsum.
  pose proof (start_stream_detail cfg env a) as Hdet.
  destruct (start_stream cfg env a) as [[c2 f2] t2]. expose.
  destruct Hsum as (_ & Hpl & Hidx & _).
  destruct Hdet as (_ & _ & _ & _ & Hlive).
  intros H. injection H as -> -> <-.
  destruct (Hlive eq_refl) as [Hr Hp].
  rewrite Hidx, Hpl. done.
Qed.

(** * Index normalization *)

Lemma subscript_in_range {A} (l : list A) (i : Z) :
  0 <= i < Z.of_nat (length l) -> is_Some (subscript l i).
Proof.
  intros Hi. unfold subscript. rewrite bool_decide_eq_true_2 by done.
  apply lookup_lt_is_Some. lia.
Qed.

Lemma handle_boundaries_wraps f :
  playlist (self f) <> [] ->
  let r := handle_boundaries f in
  let i := current_index (self f) in
  let len := Z.of_nat (length (playlist (self f))) in
  ctl_of r = Normal tt /\
  trace_of r = [] /\
  playlist (state_of r) = playlist (self f) /\
  current_index (state_of r) =
    (if bool_decide (i >= len) then 0
     else if bool_decide (i < 0) then len - 1 else i) /\
  0 <= current_index (state_of r) < len.
Proof.
  destruct f as [[pr pl i q st rd] c]. cbn [self playlist current_index].
  intros Hne. assert (0 < Z.of_nat (length pl)) by (destruct pl; cbn; [done | lia]).
  unfold_worker. cbn.
  repeat case_bool_decide; cbn; repeat split; try done; try lia.
Qed.

(** C4. Whatever commands arrive and however often the index advances, the
    video that a cycle starts lies inside the playlist: every [EvStart i u]
    of a run of the worker has [0 <= i < len(playlist)] and [u] is the
    playlist's entry [i].  The boundary step wraps an index at or beyond the
    end to [0] and a negative one to [len - 1], and after it the subscript
    [self.playlist[self.current_index]] raises nothing. *)
Theorem started_index_in_range :
  (forall cfg oracle s i u,
     let r := run (_stream_worker cfg oracle) s in
     EvStart i u ∈ trace_of r ->
     0 <= i < Z.of_nat (length (playlist (state_of r))) /\
     playlist (state_of r) !! Z.to_nat i = Some u) /\
  (forall f,
     playlist (self f) <> [] ->
     let r := handle_boundaries f in
     let i := current_index (self f) in
     let len := Z.of_nat (length (playlist (self f))) in
     ctl_of r = Normal tt /\
     current_index (state_of r) =
       (if bool_decide (i >= len) then 0
        else if bool_decide (i < 0) then len - 1 else i) /\
     0 <= current_index (state_of r) < len) /\
  (forall cfg env f,
     let r := select_video cfg env f in
     ctl_of r = Normal tt ->
     0 <= current_index (state_of r)
       < Z.of_nat (length (playlist (state_of r))) /\
     is_Some (subscript (playlist (state_of r)) (current_index (state_of r)))).
Proof.
  split; [| split].
  - intros cfg oracle s i u r Hin. subst r.
    destruct (worker_tracked cfg oracle (mkFrame s None))
      as (s1 & t & (_ & E & _) & Hres).
    fold (run (_stream_worker cfg oracle) s) in Hres.
    destruct Hres as [(_ & Hs & Ht) | (_ & Hs & Ht & _)];
      rewrite Hs; rewrite Ht in Hin.
    + by apply E.
    + apply elem_of_app in Hin as [Hin | Hin]; [by apply E |].
      apply list_elem_of_singleton in Hin. discriminate.
  - intros f Hne. destruct (handle_boundaries_wraps f Hne) as (? & ? & ? & ? & ?).
    done.
  - intros cfg env f r Hn. subst r.
    destruct (select_video_tracked cfg env f) as (_ & _ & _ & Hi & _).
    split; [by apply Hi |]. apply subscript_in_range. by apply Hi.
Qed.

Lemma started_index_in_range_witness :
  (0 <= 2 < Z.of_nat (length (playlist (state_of
      (run (_stream_worker Scenario.cfg
              [(quiet, Scenario.env_play Scenario.plays_out);
               (quiet, Scenario.env_play Scenario.plays_out)])
           (Scenario.at_index 0 [Prev]))))) /\
   playlist (state_of
      (run (_stream_worker Scenario.cfg
              [(quiet, Scenario.env_play Scenario.plays_out);
               (quiet, Scenario.env_play Scenario.plays_out)])
           (Scenario.at_index 0 [Prev]))) !! Z.to_nat 2 = Some "C") /\
  current_index (state_of
    (handle_boundaries (mkFrame (Scenario.at_index (-1) []) None))) = 2.
Proof.
  split.
  - apply (proj1 started_index_in_range Scenario.cfg
             [(quiet, Scenario.env_play Scenario.plays_out);
              (quiet, Scenario.env_play Scenario.plays_out)]
             (Scenario.at_index 0 [Prev]) 2 "C").
    vm_compute. constructor.
  - destruct (proj1 (proj2 started_index_in_range)
                (mkFrame (Scenario.at_index (-1) []) None)) as (_ & Hi & _).
    + discriminate.
    + rewrite Hi. reflexivity.
Defined.

(** * Readiness *)

Lemma passive_no_probe t ok : Forall passive t -> EvProbe ok ∉ t.
Proof.
  intros Hp Hin. rewrite Forall_forall in Hp. apply (Hp _ Hin).
Qed.

(** Step 3 ends as its probe says. *)
Lemma start_stream_probe cfg env f ok :
  let r := start_stream cfg env f in
  EvProbe ok ∈ trace_of r ->
  stream_ready (state_of r) = ok /\
  ctl_of r = (if ok then Normal tt else Continue).
Proof.
  destruct f as [[pr pl i q st rd] c].
  unfold_worker. cbn.
  repeat (break_match; cbn).
  all: intros Hin.
  all: repeat (apply elem_of_cons in Hin as [Hin | Hin];
               [try discriminate Hin |]);
    try (by apply elem_of_nil in Hin).
  all: injection Hin as Hin; subst; cbn in *; done.
Qed.

(** A cycle that has run to its end leaves the readiness flag as its
    startup probe found it, and holds no process. *)
Lemma cycle_probe cfg env s ok :
  let r := run (cycle cfg env) s in
  EvProbe ok ∈ trace_of r ->
  ctl_of r <> Starved ->
  stream_ready (state_of r) = ok /\ ffmpeg_proc (state_of r) = None.
Proof.
  cbv zeta. intros Hin Hns.
  destruct (cycle_shape cfg env s) as [Hst Hgo].
  assert (Hns' : ctl_of (attempt cfg env (mkFrame s None)) <> Starved).
  { intros Hs. apply Hns. by rewrite (Hst Hs). }
  destruct (Hgo Hns') as (Hf & _ & Ht).
  destruct (cleanup_summary (frame_of (attempt cfg env (mkFrame s None))))
    as (_ & Hp & _ & _ & _ & Hr & _ & Htc).
  assert (Ha : EvProbe ok ∈ trace_of (attempt cfg env (mkFrame s None))).
  { rewrite Ht, Htc in Hin.
    apply elem_of_app in Hin as [Hin | Hin]; [exact Hin |]. exfalso.
    apply elem_of_app in Hin as [Hin | Hin].
    - destruct (ctl_of _); try (by apply elem_of_nil in Hin).
      destruct (ffmpeg_proc _); cbn in Hin;
        repeat (apply elem_of_cons in Hin as [Hin | Hin];
                [discriminate Hin |]);
        by apply elem_of_nil in Hin.
    - destruct (is_nil _);
        repeat (apply elem_of_cons in Hin as [Hin | Hin];
                [discriminate Hin |]);
        by apply elem_of_nil in Hin. }
  unfold state_of, frame_of in *. rewrite Hf. split; [| exact Hp].
  rewrite Hr. clear Hf Hp Hr Htc Ht Hgo Hst Hin.
  rewrite attempt_shape in Ha |- *.
  destruct (select_video_summary cfg env (mkFrame s None))
    as (_ & _ & _ & _ & Ht1 & _).
  pose proof (start_stream_probe cfg env
                (frame_of (select_video cfg env (mkFrame s None))) ok) as H2.
  destruct (wait_for_finish_summary (ticks env)
              (frame_of (start_stream cfg env
                 (frame_of (select_video cfg env (mkFrame s None))))))
    as (_ & _ & _ & _ & Hr3 & _ & Ht3 & _).
  unfold ctl_of, state_of, trace_of, frame_of in *. cbv zeta in H2.
  destruct ((select_video cfg env _).1.1) as [[] | | | |];
    try (exfalso; exact (passive_no_probe _ _ Ht1 Ha)).
  assert (Hin2 : EvProbe ok ∈ (start_stream cfg env
                   (select_video cfg env (mkFrame s None)).1.2).2).
  { destruct ((start_stream cfg env _).1.1) as [[] | | | |];
      cbn [fst snd] in Ha;
      repeat (apply elem_of_app in Ha as [Ha | Ha]);
      try exact Ha; exfalso;
      first [ exact (passive_no_probe _ _ Ht1 Ha)
            | exact (passive_no_probe _ _ Ht3 Ha) ]. }
  destruct (H2 Hin2) as [Hr2 Hc2]. rewrite Hc2.
  destruct ok; cbn [fst snd]; congruence.
Qed.

(** C5, as the code has it.  In every run of the worker the readiness flag
    is cleared directly after the output directory was cleaned for a launch
    and nowhere else, each launch comes directly after such a clear, and the
    flag is raised only directly after a startup probe that succeeded (the
    forced set on the worker's exit apart, which is the last event of a run
    that has returned); the flag is at every end what the sets and clears
    of the trace left.  A termination does not touch it: a cycle that has
    run to its end leaves the flag as its startup probe found it, down after
    a failed startup and up after a stream that went live, whether the
    process then exited by itself or was terminated for a command or a
    stop, and holds no process.  The flag stays so through the arrival of
    commands and steps 1 and 2 of the next cycle, until step 3 clears it
    for the next launch. *)
Theorem readiness_follows_probe :
  (forall cfg oracle s,
     let r := run (_stream_worker cfg oracle) s in
     exists t,
       trace_of r = t ++ (if returned (ctl_of r) then [EvReady true] else []) /\
       (forall b, launches_unready b (trace_of r) = true) /\
       (forall prev, sets_follow_probe prev t = true) /\
       (forall prev, clears_at_launch prev (trace_of r) = true) /\
       stream_ready (state_of r) = ready_after (stream_ready s) (trace_of r)) /\
  (forall cfg env s ok,
     let r := run (cycle cfg env) s in
     EvProbe ok ∈ trace_of r ->
     ctl_of r <> Starved ->
     stream_ready (state_of r) = ok /\ ffmpeg_proc (state_of r) = None) /\
  (forall cfg env i f,
     stream_ready (state_of (select_video cfg env (frame_of (interfere i f))))
     = stream_ready (self f)).
Proof.
  split; [| split].
  - intros cfg oracle s. cbv zeta.
    destruct (worker_tracked cfg oracle (mkFrame s None))
      as (s1 & t & (_ & _ & R & (L & S & C) & _) & Hres).
    fold (run (_stream_worker cfg oracle) s) in Hres. cbn [self] in R.
    exists t.
    destruct Hres as [(Hc & Hs & Ht) | (Hc & Hs & Ht & _)];
      rewrite Hc, Hs, Ht; cbn [returned].
    + rewrite app_nil_r. done.
    + split; [done |]. split; [| split; [done | split]].
      * intros b. rewrite launches_unready_app, L. reflexivity.
      * intros prev. rewrite clears_at_launch_app; [apply C |].
        by intros [[]|].
      * rewrite ready_after_app. reflexivity.
  - intros cfg env s ok. apply cycle_probe.
  - intros cfg env i f.
    destruct (select_video_summary cfg env (frame_of (interfere i f)))
      as (_ & _ & _ & Hr & _).
    rewrite Hr. by destruct f as [[] ?], i.
Qed.

Lemma readiness_follows_probe_witness :
  (stream_ready (state_of
     (run (cycle Scenario.cfg (Scenario.env_play Scenario.next_pressed))
        (Scenario.at_index 0 []))) = true /\
   ffmpeg_proc (state_of
     (run (cycle Scenario.cfg (Scenario.env_play Scenario.next_pressed))
        (Scenario.at_index 0 []))) = None) /\
  (stream_ready (state_of
     (run (cycle Scenario.cfg (Scenario.env_play Scenario.plays_out))
        (Scenario.at_index 0 []))) = true /\
   ffmpeg_proc (state_of
     (run (cycle Scenario.cfg (Scenario.env_play Scenario.plays_out))
        (Scenario.at_index 0 []))) = None) /\
  (stream_ready (state_of
     (run (cycle Scenario.cfg Scenario.env_dies_early)
        (mkManager None Scenario.abc 0 [] false true))) = false /\
   ffmpeg_proc (state_of
     (run (cycle Scenario.cfg Scenario.env_dies_early)
        (mkManager None Scenario.abc 0 [] false true))) = None).
Proof.
  split; [| split].
  - apply (proj1 (proj2 readiness_follows_probe) Scenario.cfg
             (Scenario.env_play Scenario.next_pressed)
             (Scenario.at_index 0 []) true).
    + vm_compute. repeat constructor.
    + discriminate.
  - apply (proj1 (proj2 readiness_follows_probe) Scenario.cfg
             (Scenario.env_play Scenario.plays_out)
             (Scenario.at_index 0 []) true).
    + vm_compute. repeat constructor.
    + discriminate.
  - apply (proj1 (proj2 readiness_follows_probe) Scenario.cfg
             Scenario.env_dies_early
             (mkManager None Scenario.abc 0 [] false true) false).
    + vm_compute. repeat constructor.
    + discriminate.
Defined.

(** C5, as the specification states it, fails: a live process that is
    terminated for a command leaves the cycle with the handle cleared and
    the readiness flag still up. *)
Lemma readiness_outlives_process :
  ~ (forall cfg env s,
       let r := run (cycle cfg env) s in
       (forall p, last (trace_of r) = Some (EvTerminate p) ->
                  stream_ready (state_of r) = false) /\
       (stream_ready (state_of r) = true ->
        is_Some (ffmpeg_proc (state_of r)))).
Proof.
  intros H.
  destruct (H Scenario.cfg (Scenario.env_play Scenario.next_pressed)
              (Scenario.at_index 0 [])) as [HA _].
  specialize (HA 7%nat eq_refl). discriminate HA.
Qed.

(** * Exceptions and shutdown *)

Lemma worker_returns_ready cfg oracle s :
  let r := run (_stream_worker cfg oracle) s in
  (ctl_of r = Starved \/ ctl_of r = Normal tt) /\
  (ctl_of r = Normal tt ->
   (stop_pending s = true \/ existsb turn_asks_stop oracle = true) /\
   stream_ready (state_of r) = true).
Proof.
  cbv zeta.
  destruct (worker_tracked cfg oracle (mkFrame s None))
    as (s1 & t & _ & Hres).
  fold (run (_stream_worker cfg oracle) s) in Hres. cbn [self] in Hres.
  destruct Hres as [(Hc & Hs & Ht) | (Hc & Hs & Ht & Hreq)]; rewrite Hc.
  - split; [by left | discriminate].
  - split; [by right |]. intros _. split; [done |]. rewrite Hs. reflexivity.
Qed.

(** The worker reads nothing of the frame it is entered with but the
    manager: [command] is set afresh at the top of every cycle. *)
Lemma worker_forgets_command cfg oracle f :
  let r := _stream_worker cfg oracle f in
  let r' := run (_stream_worker cfg oracle) (self f) in
  ctl_of r = ctl_of r' /\ state_of r = state_of r' /\ trace_of r = trace_of r'.
Proof.
  cbv zeta. unfold run.
  destruct oracle as [| [i env] rest]; [done |].
  destruct f as [s c]. cbn [self _stream_worker]. cbv [bind get].
  change (interfere i (mkFrame s c))
    with (Normal tt, mkFrame (state_of (interfere i (mkFrame s None))) c,
          @nil Event).
  change (interfere i (mkFrame s None))
    with (Normal tt, mkFrame (state_of (interfere i (mkFrame s None))) None,
          @nil Event) at 2 4 6.
  cbv beta iota. cbn [self].
  destruct (stop_event _); [done |].
  unfold iteration. rewrite !(cycle_forgets_command cfg env (mkFrame _ c)).
  rewrite !(cycle_forgets_command cfg env (mkFrame _ None)).
  done.
Qed.

Lemma worker_turn_from cfg i env rest s s0 :
  interfere i (mkFrame s None) = (Normal tt, mkFrame s0 None, []) ->
  let c := run (cycle cfg env) s0 in
  let w := run (_stream_worker cfg ((i, env) :: rest)) s in
  let w' := run (_stream_worker cfg rest) (state_of c) in
  stop_event s0 = false ->
  ctl_of c = Normal tt \/ ctl_of c = Continue ->
  ctl_of w = ctl_of w' /\ state_of w = state_of w' /\
  trace_of w = trace_of c ++ trace_of w'.
Proof.
  intros Hint. cbv zeta. intros Hstop Hc.
  assert (Hw : run (_stream_worker cfg ((i, env) :: rest)) s =
               (let '(c2, f2, t2) :=
                  _stream_worker cfg rest
                    (frame_of (run (cycle cfg env) s0)) in
                (c2, f2, trace_of (run (cycle cfg env) s0) ++ t2))).
  { unfold run in *. cbn [_stream_worker]. cbv [bind get].
    rewrite Hint. cbn [self]. rewrite Hstop. unfold iteration.
    destruct (cycle cfg env (mkFrame s0 None)) as [[c1 f1] t1]. expose.
    destruct Hc as [-> | ->]; cbn [app];
      by destruct (_stream_worker cfg rest f1) as [[[] ?] ?]. }
  rewrite Hw.
  destruct (worker_forgets_command cfg rest
              (frame_of (run (cycle cfg env) s0))) as (H1 & H2 & H3).
  unfold state_of at 2 4. fold (frame_of (run (cycle cfg env) s0)).
  destruct (_stream_worker cfg rest (frame_of (run (cycle cfg env) s0)))
    as [[c2 f2] t2].
  expose. rewrite <- H1, <- H2, <- H3. done.
Qed.

(** A turn of the loop, when no stop is set at its head and the cycle ends
    otherwise than by [break], is the cycle followed by the rest of the
    loop. *)
Lemma worker_turn cfg i env rest s :
  let s0 := state_of (interfere i (mkFrame s None)) in
  let c := run (cycle cfg env) s0 in
  let w := run (_stream_worker cfg ((i, env) :: rest)) s in
  let w' := run (_stream_worker cfg rest) (state_of c) in
  stop_event s0 = false ->
  ctl_of c = Normal tt \/ ctl_of c = Continue ->
  ctl_of w = ctl_of w' /\ state_of w = state_of w' /\
  trace_of w = trace_of c ++ trace_of w'.
Proof.
  cbv zeta. apply worker_turn_from. reflexivity.
Qed.

(** C8. No exception leaves a cycle.  When the [try] suite raises, the
    handler terminates the active process, if there is one, and sleeps ten
    seconds, and the cycle ends like any other.  The loop then goes on: the
    run of the worker over a turn whose [try] suite raised is that cycle
    followed by the run of the worker over the turns that remain.  The
    worker returns only when a stop was requested, by the stop event or by a
    queued ["stop"]; without one it is still running when the oracle ends.
    When it returns, the readiness flag is up and [get_status] reports
    ["ready"]. *)
Theorem worker_ends_only_on_stop :
  (forall cfg env s, ctl_of (run (cycle cfg env) s) <> Raised) /\
  (forall cfg env s,
     let a := attempt cfg env (mkFrame s None) in
     let r := run (cycle cfg env) s in
     ctl_of a = Raised ->
     ctl_of r = Normal tt /\
     ffmpeg_proc (state_of r) = None /\
     exists t3,
       trace_of r =
         trace_of a ++
         (match ffmpeg_proc (state_of a) with
          | Some p => [EvTerminate p]
          | None => []
          end ++ [EvSleep 10000]) ++ t3) /\
  (forall cfg i env rest s,
     let s0 := state_of (interfere i (mkFrame s None)) in
     let c := run (cycle cfg env) s0 in
     let w := run (_stream_worker cfg ((i, env) :: rest)) s in
     let w' := run (_stream_worker cfg rest) (state_of c) in
     stop_event s0 = false ->
     ctl_of (attempt cfg env (mkFrame s0 None)) = Raised ->
     ctl_of w = ctl_of w' /\ state_of w = state_of w' /\
     trace_of w = trace_of c ++ trace_of w') /\
  (forall cfg oracle s,
     let r := run (_stream_worker cfg oracle) s in
     (ctl_of r = Starved \/ ctl_of r = Normal tt) /\
     (stop_pending s = false -> existsb turn_asks_stop oracle = false ->
      ctl_of r = Starved) /\
     (ctl_of r = Normal tt ->
      stream_ready (state_of r) = true /\
      status (get_status (state_of r)) = "ready")).
Proof.
  assert (Hraised : forall cfg env s,
            ctl_of (attempt cfg env (mkFrame s None)) = Raised ->
            ctl_of (run (cycle cfg env) s) = Normal tt /\
            ffmpeg_proc (state_of (run (cycle cfg env) s)) = None /\
            exists t3,
              trace_of (run (cycle cfg env) s) =
                trace_of (attempt cfg env (mkFrame s None)) ++
                (match ffmpeg_proc
                         (state_of (attempt cfg env (mkFrame s None))) with
                 | Some p => [EvTerminate p]
                 | None => []
                 end ++ [EvSleep 10000]) ++ t3).
  { intros cfg env s.
    unfold run, cycle, try_except_finally. cbv [bind set_command]. cbn [self].
    destruct (attempt cfg env (mkFrame s None)) as [[c1 f1] t1]. expose.
    intros ->.
    destruct (on_exception_summary f1) as (Hc & Hf & Ht).
    destruct (on_exception f1) as [[c2 f2] t2]. expose. subst c2 f2.
    destruct (cleanup_summary f1) as (Hc & Hp & _).
    destruct (cleanup f1) as [[c3 f3] t3]. expose. subst c3.
    cbn [app]. split; [done |]. split; [done |]. exists t3.
    rewrite Ht. reflexivity. }
  split; [| split; [| split]].
  - intros cfg env s. apply (cycle_tracked cfg env s).
  - intros cfg env s. cbv zeta. apply Hraised.
  - intros cfg i env rest s. cbv zeta. intros Hstop Ha.
    apply worker_turn; [exact Hstop |]. left.
    by destruct (Hraised cfg env _ Ha) as [Hc _].
  - intros cfg oracle s. cbv zeta.
    destruct (worker_returns_ready cfg oracle s) as [Hc Hn].
    split; [exact Hc |]. split.
    + intros Hs Ho. destruct Hc as [Hc | Hc]; [exact Hc |].
      destruct (Hn Hc) as [[H | H] _]; congruence.
    + intros Hc'. destruct (Hn Hc') as [_ Hr]. split; [exact Hr |].
      unfold get_status. cbn. rewrite Hr. reflexivity.
Qed.

Lemma worker_ends_only_on_stop_witness :
  (ctl_of (run (cycle Scenario.cfg Scenario.env_probe_raises)
             (Scenario.at_index 0 [])) = Normal tt /\
   ffmpeg_proc (state_of (run (cycle Scenario.cfg Scenario.env_probe_raises)
                            (Scenario.at_index 0 []))) = None /\
   exists t3,
     trace_of (run (cycle Scenario.cfg Scenario.env_probe_raises)
                 (Scenario.at_index 0 [])) =
     [EvStart 0 "A"; EvClean; EvReady false;
      EvLaunch 7%nat "A/v" "A/a" "1280x720" "2500k"] ++
     ([EvTerminate 7%nat] ++ [EvSleep 10000]) ++ t3) /\
  trace_of (run (_stream_worker Scenario.cfg
                   [(quiet, Scenario.env_probe_raises);
                    (quiet, Scenario.env_no_media)])
              (Scenario.at_index 0 [])) =
    [EvStart 0 "A"; EvClean; EvReady false;
     EvLaunch 7%nat "A/v" "A/a" "1280x720" "2500k";
     EvTerminate 7%nat; EvSleep 10000; EvSleep 3000] ++
    [EvStart 1 "B"; EvSleep 3000] /\
  (ctl_of (run (cycle Scenario.cfg Scenario.env_no_ffmpeg)
             (Scenario.at_index 0 [])) = Normal tt /\
   ffmpeg_proc (state_of (run (cycle Scenario.cfg Scenario.env_no_ffmpeg)
                            (Scenario.at_index 0 []))) = None /\
   exists t3,
     trace_of (run (cycle Scenario.cfg Scenario.env_no_ffmpeg)
                 (Scenario.at_index 0 [])) =
     [EvStart 0 "A"; EvClean; EvReady false] ++
     ([] ++ [EvSleep 10000]) ++ t3) /\
  ctl_of (run (_stream_worker Scenario.cfg
                 [(quiet, Scenario.env_no_ffmpeg);
                  (quiet, Scenario.env_no_ffmpeg)])
            (Scenario.at_index 0 [])) = Starved /\
  (stream_ready (state_of (run (_stream_worker Scenario.cfg
                 [(quiet, Scenario.env_no_ffmpeg);
                  (stop_request, Scenario.env_no_ffmpeg)])
            (Scenario.at_index 0 []))) = true /\
   status (get_status (state_of (run (_stream_worker Scenario.cfg
                 [(quiet, Scenario.env_no_ffmpeg);
                  (stop_request, Scenario.env_no_ffmpeg)])
            (Scenario.at_index 0 [])))) = "ready").
Proof.
  split; [| split; [| split; [| split]]].
  - exact (proj1 (proj2 worker_ends_only_on_stop) Scenario.cfg
             Scenario.env_probe_raises (Scenario.at_index 0 []) eq_refl).
  - exact (proj2 (proj2 (proj1 (proj2 (proj2 worker_ends_only_on_stop))
             Scenario.cfg quiet Scenario.env_probe_raises
             [(quiet, Scenario.env_no_media)] (Scenario.at_index 0 [])
             eq_refl eq_refl))).
  - exact (proj1 (proj2 worker_ends_only_on_stop) Scenario.cfg
             Scenario.env_no_ffmpeg (Scenario.at_index 0 []) eq_refl).
  - apply (proj2 (proj2 (proj2 worker_ends_only_on_stop)) Scenario.cfg
             [(quiet, Scenario.env_no_ffmpeg);
              (quiet, Scenario.env_no_ffmpeg)] (Scenario.at_index 0 []));
      reflexivity.
  - apply (proj2 (proj2 (proj2 worker_ends_only_on_stop)) Scenario.cfg
             [(quiet, Scenario.env_no_ffmpeg);
              (stop_request, Scenario.env_no_ffmpeg)]
             (Scenario.at_index 0 [])).
    reflexivity.
Defined.

(** * Single cycles *)

(** With nothing queued, a playlist at hand and the index inside it, steps
    1 and 2 change nothing. *)
Lemma select_video_idle cfg env f :
  command_queue (self f) = [] ->
  0 <= current_index (self f) < Z.of_nat (length (playlist (self f))) ->
  select_video cfg env f = (Normal tt, f, []).
Proof.
  destruct f as [[pr pl i q st rd] c]. cbn [self command_queue current_index playlist].
  intros -> Hi. unfold_worker. cbn.
  destruct pl as [| u pl]; [cbn in Hi; lia |]. cbn [is_nil].
  cbn. rewrite bool_decide_eq_true_2 by done. reflexivity.
Qed.

Lemma subscript_lookup {A} (l : list A) (i : Z) (x : A) :
  0 <= i < Z.of_nat (length l) -> l !! Z.to_nat i = Some x ->
  subscript l i = Some x.
Proof.
  intros Hi Hx. unfold subscript. by rewrite bool_decide_eq_true_2.
Qed.

(** C1, what the code does.  When the media locator returns a pair with a
    source missing, the cycle launches nothing and the loop goes on, but the
    index is left where it was: [command = 'next'] switches the advance of
    the [finally] suite off, so the next cycle asks for the same video. *)
Theorem media_failure_keeps_index cfg env s u v a :
  command_queue s = [] ->
  0 <= current_index s < Z.of_nat (length (playlist s)) ->
  playlist s !! Z.to_nat (current_index s) = Some u ->
  locator env u (format (preset cfg)) = Returns (v, a) ->
  falsy v || falsy a = true ->
  let r := run (cycle cfg env) s in
  ctl_of r = Continue /\
  trace_of r = [EvStart (current_index s) u; EvSleep 3000] /\
  current_index (state_of r) = current_index s /\
  playlist (state_of r) = playlist s.
Proof.
  intros Hq Hi Hu Hloc Hfalsy. cbv zeta.
  unfold run, cycle, try_except_finally, attempt. cbv [bind set_command].
  cbn [self]. rewrite select_video_idle by done.
  destruct s as [pr pl i q st rd]. cbn in Hq, Hi, Hu. subst q.
  unfold_worker. cbn. rewrite (subscript_lookup _ _ _ Hi Hu). cbn.
  rewrite Hloc. cbn. rewrite Hfalsy. cbn. done.
Qed.

Lemma media_failure_keeps_index_witness :
  ctl_of (run (cycle Scenario.cfg Scenario.env_no_media)
            (Scenario.at_index 1 [])) = Continue /\
  trace_of (run (cycle Scenario.cfg Scenario.env_no_media)
              (Scenario.at_index 1 [])) =
    [EvStart 1 "B"; EvSleep 3000] /\
  current_index (state_of (run (cycle Scenario.cfg Scenario.env_no_media)
                             (Scenario.at_index 1 []))) = 1 /\
  playlist (state_of (run (cycle Scenario.cfg Scenario.env_no_media)
                        (Scenario.at_index 1 []))) = Scenario.abc.
Proof.
  apply (media_failure_keeps_index Scenario.cfg Scenario.env_no_media
           (Scenario.at_index 1 []) "B" None None); try reflexivity.
  cbn. lia.
Defined.

(** The same video is asked for again in the following cycle. *)
Example media_failure_retries_same_video :
  trace_of (run (_stream_worker Scenario.cfg
                   [(quiet, Scenario.env_no_media);
                    (quiet, Scenario.env_no_media)])
              (Scenario.at_index 1 [])) =
  [EvStart 1 "B"; EvSleep 3000; EvStart 1 "B"; EvSleep 3000].
Proof. reflexivity. Qed.

(** C2, what the code does.  A cycle that finds the playlist empty and gets
    an empty result from the resolver sleeps sixty seconds and leaves by
    [continue]; with no command taken in this cycle, none queued and no stop
    set, the [finally] suite then adds one to the index. *)
Theorem empty_playlist_retry_advances_index cfg env s :
  playlist s = [] ->
  command_queue s = [] ->
  stop_event s = false ->
  resolver env (url cfg) = Returns [] ->
  let r := run (cycle cfg env) s in
  ctl_of r = Continue /\
  trace_of r = [EvFetch (url cfg); EvSleep 60000; EvSleep 3000] /\
  playlist (state_of r) = [] /\
  current_index (state_of r) = current_index s + 1.
Proof.
  intros Hp Hq Hs Hr. destruct s as [pr pl i q st rd]. cbn in Hp, Hq, Hs.
  subst pl q st. cbv zeta.
  unfold run, cycle, try_except_finally, attempt. unfold_worker. cbn.
  rewrite Hr. cbn. done.
Qed.

Lemma empty_playlist_retry_advances_index_witness :
  ctl_of (run (cycle Scenario.cfg Scenario.env_no_playlist) init_manager)
    = Continue /\
  trace_of (run (cycle Scenario.cfg Scenario.env_no_playlist) init_manager)
    = [EvFetch "PL"; EvSleep 60000; EvSleep 3000] /\
  playlist (state_of (run (cycle Scenario.cfg Scenario.env_no_playlist)
                        init_manager)) = [] /\
  current_index (state_of (run (cycle Scenario.cfg Scenario.env_no_playlist)
                             init_manager)) = 0.
Proof.
  apply (empty_playlist_retry_advances_index Scenario.cfg
           Scenario.env_no_playlist init_manager); reflexivity.
Defined.

(** * Skips *)

Lemma select_video_skip cfg env f n q :
  playlist (self f) <> [] ->
  command_queue (self f) = Skip n :: q ->
  let len := Z.of_nat (length (playlist (self f))) in
  let r := select_video cfg env f in
  ctl_of r = Normal tt /\
  trace_of r = [] /\
  command (frame_of r) = Some "skip" /\
  command_queue (state_of r) = q /\
  playlist (state_of r) = playlist (self f) /\
  current_index (state_of r) =
    (if bool_decide (n - 1 >= len) then 0
     else if bool_decide (n - 1 < 0) then len - 1 else n - 1).
Proof.
  destruct f as [[pr pl i q0 st rd] c]. cbn [self command_queue playlist].
  intros Hne ->. unfold_worker. cbn.
  destruct pl as [| u pl]; [done |]. cbn [is_nil]. cbn.
  repeat case_bool_decide; cbn; repeat split; try done; try lia.
Qed.

(** [start_stream] reads the index and the queue but writes neither, and
    leaves a [command] that was set, set. *)
Lemma start_stream_keeps_command cfg env f :
  let r := start_stream cfg env f in
  current_index (state_of r) = current_index (self f) /\
  (falsy (command f) = false -> falsy (command (frame_of r)) = false).
Proof.
  destruct f as [[pr pl i q st rd] c]. unfold_worker. cbn.
  repeat (break_match; cbn); split; done.
Qed.

(** A cycle that took a command ends on the index that steps 1 and 2
    chose: nothing later moves it. *)
Lemma commanded_cycle_keeps_index cfg env s :
  let sel := select_video cfg env (mkFrame s None) in
  ctl_of sel = Normal tt ->
  falsy (command (frame_of sel)) = false ->
  current_index (state_of (run (cycle cfg env) s)) =
  current_index (state_of sel).
Proof.
  cbv zeta. unfold run, cycle, try_except_finally, attempt.
  cbv [bind set_command]. cbn [self].
  destruct (select_video cfg env (mkFrame s None)) as [[c1 f1] t1]. expose.
  intros -> Hcmd.
  pose proof (start_stream_keeps_command cfg env f1) as Hst.
  destruct (start_stream cfg env f1) as [[c2 f2] t2]. expose.
  destruct Hst as [Hi2 Hc2]. specialize (Hc2 Hcmd).
  assert (Hclean : forall f, falsy (command f) = false ->
            current_index (state_of (cleanup f)) = current_index (self f)).
  { intros f Hf. destruct (cleanup_summary f) as (_ & _ & _ & _ & _ & _ & Hi & _).
    rewrite Hi, Hf. reflexivity. }
  destruct c2 as [[] | | | |]; expose.
  - pose proof (wait_for_finish_summary (ticks env) f2) as Hw.
    destruct (wait_for_finish (ticks env) f2) as [[c3 f3] t3]. expose.
    destruct Hw as (_ & _ & _ & Hi3 & _ & Hc3 & _).
    rewrite <- Hc3 in Hc2.
    destruct c3 as [[] | | | |]; expose.
    + specialize (Hclean f3 Hc2). destruct (cleanup f3) as [[c4 f4] t4].
      expose. congruence.
    + specialize (Hclean f3 Hc2). destruct (cleanup f3) as [[c4 f4] t4].
      expose. congruence.
    + specialize (Hclean f3 Hc2). destruct (cleanup f3) as [[c4 f4] t4].
      expose. congruence.
    + destruct (on_exception_summary f3) as (He1 & He2 & _).
      destruct (on_exception f3) as [[c5 f5] t5]. expose. subst c5 f5.
      specialize (Hclean f3 Hc2). destruct (cleanup f3) as [[c4 f4] t4].
      expose. congruence.
    + congruence.
  - specialize (Hclean f2 Hc2). destruct (cleanup f2) as [[c4 f4] t4].
    expose. congruence.
  - specialize (Hclean f2 Hc2). destruct (cleanup f2) as [[c4 f4] t4].
    expose. congruence.
  - destruct (on_exception_summary f2) as (He1 & He2 & _).
    destruct (on_exception f2) as [[c5 f5] t5]. expose. subst c5 f5.
    specialize (Hclean f2 Hc2). destruct (cleanup f2) as [[c4 f4] t4].
    expose. congruence.
  - congruence.
Qed.

Lemma skipped_cycle_index cfg env s n q :
  playlist s <> [] ->
  command_queue s = Skip n :: q ->
  let len := Z.of_nat (length (playlist s)) in
  current_index (state_of (run (cycle cfg env) s)) =
    (if bool_decide (n - 1 >= len) then 0
     else if bool_decide (n - 1 < 0) then len - 1 else n - 1) /\
  playlist (state_of (run (cycle cfg env) s)) = playlist s.
Proof.
  intros Hne Hq. cbv zeta.
  destruct (select_video_skip cfg env (mkFrame s None) n q Hne Hq)
    as (Hc & _ & Hcmd & _ & _ & Hi).
  split.
  - rewrite commanded_cycle_keeps_index; [exact Hi | exact Hc |].
    rewrite Hcmd. reflexivity.
  - destruct (cycle_tracked cfg env s) as ((P & _) & _). by apply P.
Qed.

(** C3, as the code has it.  With a playlist of [len] entries at hand and
    [n >= 1], a cycle that takes [("skip", n)] from the queue plays index
    [n - 1] when [n <= len] and index [0] when [n] lies beyond the end; this
    is [(n - 1) mod len] whenever [n <= len + 1].  The cycle ends on that
    index, and any later cycle that takes the same skip over the same
    playlist ends on it again. *)
Theorem skip_goes_to_target_or_start cfg env s n q :
  1 <= n ->
  playlist s <> [] ->
  command_queue s = Skip n :: q ->
  let len := Z.of_nat (length (playlist s)) in
  let sel := select_video cfg env (mkFrame s None) in
  let target := if bool_decide (n <= len) then n - 1 else 0 in
  ctl_of sel = Normal tt /\
  current_index (state_of sel) = target /\
  (n <= len + 1 -> target = (n - 1) mod len) /\
  current_index (state_of (run (cycle cfg env) s)) = target /\
  (forall env' s' q',
     playlist s' = playlist s ->
     command_queue s' = Skip n :: q' ->
     current_index (state_of (run (cycle cfg env') s')) = target).
Proof.
  intros Hn Hne Hq. cbv zeta.
  assert (Hlen : 0 < Z.of_nat (length (playlist s)))
    by (destruct (playlist s); cbn; [done | lia]).
  assert (Htarget :
    (if bool_decide (n - 1 >= Z.of_nat (length (playlist s))) then 0
     else if bool_decide (n - 1 < 0)
          then Z.of_nat (length (playlist s)) - 1 else n - 1) =
    (if bool_decide (n <= Z.of_nat (length (playlist s))) then n - 1 else 0))
    by (repeat case_bool_decide; lia).
  destruct (select_video_skip cfg env (mkFrame s None) n q Hne Hq)
    as (Hc & _ & _ & _ & _ & Hi).
  cbn [self] in Hi. rewrite Htarget in Hi.
  split; [exact Hc |]. split; [exact Hi |]. split; [| split].
  - intros Hle. case_bool_decide.
    + rewrite Z.mod_small; lia.
    + replace (n - 1) with (Z.of_nat (length (playlist s))) by lia.
      rewrite Z.mod_same; lia.
  - destruct (skipped_cycle_index cfg env s n q Hne Hq) as [H _].
    rewrite H. exact Htarget.
  - intros env' s' q' Hpl Hq'.
    assert (Hne' : playlist s' <> []) by (by rewrite Hpl).
    destruct (skipped_cycle_index cfg env' s' n q' Hne' Hq') as [H _].
    rewrite H, Hpl. exact Htarget.
Qed.

Lemma skip_goes_to_target_or_start_witness :
  ctl_of (select_video Scenario.cfg (Scenario.env_play Scenario.plays_out)
            (mkFrame (Scenario.at_index 0 [Skip 3]) None)) = Normal tt /\
  current_index (state_of
     (select_video Scenario.cfg (Scenario.env_play Scenario.plays_out)
        (mkFrame (Scenario.at_index 0 [Skip 3]) None))) = 2 /\
  current_index (state_of
     (run (cycle Scenario.cfg (Scenario.env_play Scenario.plays_out))
        (Scenario.at_index 0 [Skip 3]))) = 2.
Proof.
  destruct (skip_goes_to_target_or_start Scenario.cfg
              (Scenario.env_play Scenario.plays_out)
              (Scenario.at_index 0 [Skip 3]) 3 [])
    as (Hc & Hi & _ & Hend & _).
  - lia.
  - discriminate.
  - reflexivity.
  - split; [exact Hc |]. split; [exact Hi | exact Hend].
Defined.

(** C3, as the specification states it, fails: with three entries,
    [("skip", 5)] leads to index [0], not to [(5 - 1) mod 3 = 1]. *)
Lemma skip_past_end_is_not_modular :
  ~ (forall cfg env s n q,
       1 <= n ->
       playlist s <> [] ->
       command_queue s = Skip n :: q ->
       current_index (state_of (select_video cfg env (mkFrame s None))) =
       (n - 1) mod Z.of_nat (length (playlist s))).
Proof.
  intros H.
  specialize (H Scenario.cfg (Scenario.env_play Scenario.plays_out)
                (Scenario.at_index 0 [Skip 5]) 5 []).
  assert (0 = 1) as Habs; [| discriminate Habs].
  apply H; [lia | discriminate | reflexivity].
Qed.

(** * The live phase *)

(** Once steps 1 to 3 have brought the stream up, the [try] suite is the
    monitoring loop run from there, and a process handle is held. *)
Lemma attempt_after_go_live cfg env f0 f1 t1 :
  go_live cfg env f0 = (Normal tt, f1, t1) ->
  attempt cfg env f0 =
    (let '(c, f2, t2) := wait_for_finish (ticks env) f1 in (c, f2, t1 ++ t2))
  /\ is_Some (ffmpeg_proc (self f1)).
Proof.
  unfold go_live, attempt. cbv [bind].
  pose proof (select_video_tracked cfg env f0) as Hsel.
  destruct (select_video cfg env f0) as [[c a] ta]. expose.
  destruct Hsel as (_ & _ & _ & Hi & _).
  destruct c as [[] | | | |]; try discriminate.
  pose proof (start_stream_tracked cfg env a (Hi eq_refl)) as Hst.
  destruct (start_stream cfg env a) as [[c2 f2] t2]. expose.
  destruct Hst as (_ & _ & Hp).
  intros H. injection H as -> -> <-. split; [| by apply Hp].
  destruct (wait_for_finish (ticks env) f1) as [[c3 f3] t3].
  by rewrite app_assoc.
Qed.

(** Polls during which nothing happens only sleep. *)
Lemma wait_for_finish_quiet (n : nat) tk f :
  is_Some (ffmpeg_proc (self f)) ->
  stop_event (self f) = false ->
  command_queue (self f) = [] ->
  wait_for_finish (replicate n (mkTick quiet false) ++ tk) f =
    (let '(c, f', t) := wait_for_finish tk f in
     (c, f', replicate n (EvSleep 500) ++ t)).
Proof.
  destruct f as [[pr pl i q st rd] c]. cbn [self ffmpeg_proc stop_event command_queue].
  intros [p ->] -> ->.
  induction n as [| n IH].
  - cbn [replicate app]. by destruct (wait_for_finish tk _) as [[? ?] ?].
  - cbn [replicate app wait_for_finish]. unfold_worker. cbn.
    rewrite IH. by destruct (wait_for_finish tk _) as [[[] ?] ?].
Qed.

(** The cycle's end when the process exits by itself with nothing queued
    and no stop set: the index moves on exactly when no command was taken
    at the top of this cycle. *)
Lemma natural_end_index cfg env s f1 t1 (n : nat) rest :
  go_live cfg env (mkFrame s None) = (Normal tt, f1, t1) ->
  command_queue (self f1) = [] ->
  stop_event (self f1) = false ->
  ticks env = replicate n (mkTick quiet false) ++ mkTick quiet true :: rest ->
  let r := run (cycle cfg env) s in
  ctl_of r = Normal tt /\
  trace_of r = t1 ++ replicate n (EvSleep 500) ++ [EvSleep 3000] /\
  command_queue (state_of r) = [] /\
  stop_event (state_of r) = false /\
  current_index (state_of r) =
    (if falsy (command f1) then current_index (self f1) + 1
     else current_index (self f1)).
Proof.
  intros Hlive Hq Hs Htk. cbv zeta.
  destruct (attempt_after_go_live _ _ _ _ _ Hlive) as [Ha Hp].
  unfold run, cycle, try_except_finally. cbv [bind set_command]. cbn [self].
  rewrite Ha, Htk, wait_for_finish_quiet by done.
  destruct f1 as [[pr pl i q st rd] c]. cbn in Hq, Hs, Hp |- *.
  destruct Hp as [p ->]. subst q st.
  unfold_worker. cbn.
  destruct (falsy c); cbn; rewrite app_nil_r, <- app_assoc; done.
Qed.

(** C6, what the code does.  A video that was started by a command and then
    plays to its end, with nothing queued and no stop set, leaves the index
    where it is: the [finally] suite advances only when [command] is unset,
    and [command] still holds the command taken at the top of the cycle. *)
Theorem natural_end_after_command_keeps_index cfg env s f1 t1 (n : nat) rest :
  go_live cfg env (mkFrame s None) = (Normal tt, f1, t1) ->
  falsy (command f1) = false ->
  command_queue (self f1) = [] ->
  stop_event (self f1) = false ->
  ticks env = replicate n (mkTick quiet false) ++ mkTick quiet true :: rest ->
  let r := run (cycle cfg env) s in
  ctl_of r = Normal tt /\
  command_queue (state_of r) = [] /\
  stop_event (state_of r) = false /\
  current_index (state_of r) = current_index (self f1).
Proof.
  intros Hlive Hcmd Hq Hs Htk. cbv zeta.
  destruct (natural_end_index cfg env s f1 t1 n rest Hlive Hq Hs Htk)
    as (Hc & _ & Hq' & Hs' & Hi).
  rewrite Hcmd in Hi. done.
Qed.

Lemma natural_end_after_command_keeps_index_witness :
  ctl_of (run (cycle Scenario.cfg (Scenario.env_play Scenario.plays_out))
            (Scenario.at_index 0 [Next])) = Normal tt /\
  command_queue (state_of
    (run (cycle Scenario.cfg (Scenario.env_play Scenario.plays_out))
       (Scenario.at_index 0 [Next]))) = [] /\
  stop_event (state_of
    (run (cycle Scenario.cfg (Scenario.env_play Scenario.plays_out))
       (Scenario.at_index 0 [Next]))) = false /\
  current_index (state_of
    (run (cycle Scenario.cfg (Scenario.env_play Scenario.plays_out))
       (Scenario.at_index 0 [Next]))) = 1.
Proof.
  apply (natural_end_after_command_keeps_index Scenario.cfg
           (Scenario.env_play Scenario.plays_out)
           (Scenario.at_index 0 [Next])
           (mkFrame (mkManager (Some 7%nat) Scenario.abc 1 [] false true)
                    (Some "next"))
           [EvStart 1 "B"; EvClean; EvReady false;
            EvLaunch 7%nat "B/v" "B/a" "1280x720" "2500k";
            EvProbe true; EvReady true]
           1%nat []); reflexivity.
Defined.

(** The video that [next()] started is played twice. *)
Example next_then_natural_end_replays :
  List.filter (fun e => match e with EvStart _ _ => true | _ => false end)
    (trace_of (run (_stream_worker Scenario.cfg
                      [(quiet, Scenario.env_play Scenario.plays_out);
                       (quiet, Scenario.env_play Scenario.plays_out);
                       (quiet, Scenario.env_play Scenario.plays_out)])
                 (Scenario.at_index 0 [Next]))) =
  [EvStart 1 "B"; EvStart 1 "B"; EvStart 2 "C"].
Proof. vm_compute. reflexivity. Qed.

(** Without a command at the top of the cycle the index moves on by one. *)
Lemma natural_end_without_command_advances cfg env s f1 t1 (n : nat) rest :
  go_live cfg env (mkFrame s None) = (Normal tt, f1, t1) ->
  command f1 = None ->
  command_queue (self f1) = [] ->
  stop_event (self f1) = false ->
  ticks env = replicate n (mkTick quiet false) ++ mkTick quiet true :: rest ->
  current_index (state_of (run (cycle cfg env) s)) = current_index (self f1) + 1.
Proof.
  intros Hlive Hcmd Hq Hs Htk.
  destruct (natural_end_index cfg env s f1 t1 n rest Hlive Hq Hs Htk)
    as (_ & _ & _ & _ & Hi).
  rewrite Hcmd in Hi. exact Hi.
Qed.

(** C7. A command that arrives while the stream is live, the process still
    running: the worker terminates the process and takes nothing from the
    queue, the cycle ends with the index where the live video had it, and
    the command is the first that the next cycle takes, whatever else is put
    behind it meanwhile. *)
Theorem command_during_live_is_applied_next cfg env s f1 t1 (n : nat)
    i rest cmd more :
  go_live cfg env (mkFrame s None) = (Normal tt, f1, t1) ->
  command_queue (self f1) = [] ->
  stop_event (self f1) = false ->
  ticks env = replicate n (mkTick quiet false) ++ mkTick i false :: rest ->
  arrivals i = cmd :: more ->
  let r := run (cycle cfg env) s in
  exists p,
    ffmpeg_proc (self f1) = Some p /\
    ctl_of r = Normal tt /\
    trace_of r = t1 ++ replicate n (EvSleep 500) ++ [EvTerminate p] /\
    ffmpeg_proc (state_of r) = None /\
    command_queue (state_of r) = cmd :: more /\
    current_index (state_of r) = current_index (self f1) /\
    forall i',
      let r' := (interfere i' ;; check_commands)%worker
                  (mkFrame (state_of r) None) in
      command_queue (state_of r') = more ++ arrivals i' /\
      trace_of r' = [] /\
      match cmd with
      | Stop => ctl_of r' = Break
      | Next =>
          ctl_of r' = Normal tt /\
          current_index (state_of r') = current_index (self f1) + 1
      | Prev =>
          ctl_of r' = Normal tt /\
          current_index (state_of r') = current_index (self f1) - 1
      | Skip video_num =>
          ctl_of r' = Normal tt /\
          current_index (state_of r') = video_num - 1
      end.
Proof.
  intros Hlive Hq Hs Htk Harr. cbv zeta.
  destruct (attempt_after_go_live _ _ _ _ _ Hlive) as [Ha [p Hp]].
  exists p. split; [exact Hp |].
  unfold run, cycle, try_except_finally. cbv [bind set_command]. cbn [self].
  rewrite Ha, Htk, wait_for_finish_quiet by (rewrite ?Hp; done).
  destruct f1 as [[pr pl ix q st rd] c]. cbn in Hq, Hs, Hp |- *.
  destruct i as [arr ss]. cbn in Harr. subst pr q st arr.
  unfold_worker. cbn.
  destruct ss; cbn; destruct (falsy c); cbn;
    rewrite ?app_nil_r, <- ?app_assoc;
    (repeat split; try done); destruct cmd; cbn; done.
Qed.

Lemma command_during_live_is_applied_next_witness :
  trace_of (run (cycle Scenario.cfg (Scenario.env_play Scenario.next_pressed))
              (Scenario.at_index 0 [])) =
    [EvStart 0 "A"; EvClean; EvReady false;
     EvLaunch 7%nat "A/v" "A/a" "1280x720" "2500k";
     EvProbe true; EvReady true] ++
    replicate 1 (EvSleep 500) ++ [EvTerminate 7%nat] /\
  command_queue (state_of
    (run (cycle Scenario.cfg (Scenario.env_play Scenario.next_pressed))
       (Scenario.at_index 0 []))) = [Next] /\
  current_index (state_of
    (run (cycle Scenario.cfg (Scenario.env_play Scenario.next_pressed))
       (Scenario.at_index 0 []))) = 0 /\
  current_index (state_of
    ((interfere quiet ;; check_commands)%worker
       (mkFrame (state_of
          (run (cycle Scenario.cfg (Scenario.env_play Scenario.next_pressed))
             (Scenario.at_index 0 []))) None))) = 0 + 1.
Proof.
  destruct (command_during_live_is_applied_next Scenario.cfg
              (Scenario.env_play Scenario.next_pressed)
              (Scenario.at_index 0 [])
              (mkFrame (mkManager (Some 7%nat) Scenario.abc 0 [] false true)
                       None)
              [EvStart 0 "A"; EvClean; EvReady false;
               EvLaunch 7%nat "A/v" "A/a" "1280x720" "2500k";
               EvProbe true; EvReady true]
              1%nat (mkInterference [Next] false) [] Next []
              eq_refl eq_refl eq_refl eq_refl eq_refl)
    as (p & Hp & _ & Ht & _ & Hq & Hi & Hnext).
  injection Hp as <-.
  destruct (Hnext quiet) as (_ & _ & _ & Hi').
  split; [exact Ht |]. split; [exact Hq |]. split; [exact Hi | exact Hi'].
Defined.

(** * The wrappers around yt-dlp *)




Lemma omap_length_le {A B} (f : A -> option B) (l : list A) :
  (length (omap f l) <= length l)%nat.
Proof.
  induction l as [| x l IH]; cbn; [lia |].
  destruct (f x); cbn; lia.
Qed.

Lemma entry_urls_well_formed entries :
  Forall (fun e => e <> Some None) entries ->
  Resolve.entry_urls entries = Some (omap (fun e => mjoin e) entries).
Proof.
  induction 1 as [| e entries He _ IH]; [reflexivity |].
  destruct e as [[u |] |]; cbn; rewrite ?IH; done.
Qed.

Lemma entry_urls_malformed entries :
  Some None ∈ entries -> Resolve.entry_urls entries = None.
Proof.
  induction entries as [| e entries IH]; intros Hin.
  - by apply elem_of_nil in Hin.
  - apply elem_of_cons in Hin as [<- | Hin]; [reflexivity |].
    destruct e as [[u |] |]; cbn; rewrite ?IH; done.
Qed.

(** X2. For a playlist, [_get_playlist_videos] returns the URLs of the
    non-empty entries in their order, leaving empty entries out, provided
    every non-empty entry has a URL; a single non-empty entry without one
    voids the whole list, and the result is then empty like after any other
    failure.  Nothing is returned that the entries do not hold. *)
Theorem playlist_videos_all_or_nothing url entries :
  let r := Resolve._get_playlist_videos
             (Returns (Some (Resolve.IsPlaylist entries))) url in
  (Forall (fun e => e <> Some None) entries ->
   r = omap (fun e => mjoin e) entries) /\
  (Some None ∈ entries -> r = []) /\
  (forall u, u ∈ r -> Some (Some u) ∈ entries) /\
  (length r <= length entries)%nat.
Proof.
  cbv zeta. cbn.
  assert (Hsub : forall u, u ∈ omap (fun e : option (option string) => mjoin e)
                                   entries -> Some (Some u) ∈ entries).
  { intros u Hu. apply list_elem_of_omap in Hu as (e & He & Hj).
    destruct e as [[v |] |]; cbn in Hj; try discriminate.
    by injection Hj as ->. }
  split; [| split; [| split]].
  - intros Hok. by rewrite entry_urls_well_formed.
  - intros Hbad. by rewrite entry_urls_malformed.
  - intros u Hu.
    destruct (decide (Some None ∈ entries)) as [Hbad | Hok].
    + rewrite entry_urls_malformed in Hu by done. by apply elem_of_nil in Hu.
    + rewrite entry_urls_well_formed in Hu; [by apply Hsub |].
      apply Forall_forall. intros e He ->. done.
  - destruct (decide (Some None ∈ entries)) as [Hbad | Hok].
    + rewrite entry_urls_malformed by done. cbn. lia.
    + rewrite entry_urls_well_formed.
      * cbn. apply omap_length_le.
      * apply Forall_forall. intros e He ->. done.
Qed.

Lemma playlist_videos_all_or_nothing_witness :
  Resolve._get_playlist_videos
    (Returns (Some (Resolve.IsPlaylist [Some (Some "a"); None; Some (Some "b")])))
    "PL" = ["a"; "b"] /\
  Resolve._get_playlist_videos
    (Returns (Some (Resolve.IsPlaylist [Some (Some "a"); Some None])))
    "PL" = [].
Proof.
  split.
  - apply (proj1 (playlist_videos_all_or_nothing "PL"
                    [Some (Some "a"); None; Some (Some "b")])).
    repeat constructor; discriminate.
  - apply (proj1 (proj2 (playlist_videos_all_or_nothing "PL"
                    [Some (Some "a"); Some None]))).
    set_solver.
Defined.

(** * The output directory *)

Lemma append_nonempty a b : b <> "" -> String.eqb (a +:+ b) "" = false.
Proof.
  intros Hb. apply String.eqb_neq. destruct a; [done | discriminate].
Qed.

Lemma endswith_cons c s x :
  Hls.endswith (String c s) x =
  String.eqb (String c s) x || Hls.endswith s x.
Proof. reflexivity. Qed.

Lemma endswith_append_sep a b :
  b <> "" -> Hls.endswith (a +:+ b) "/" = Hls.endswith b "/".
Proof.
  intros Hb. induction a as [| c a IH]; [reflexivity |].
  change (String c a +:+ b) with (String c (a +:+ b)).
  rewrite endswith_cons, IH.
  replace (String.eqb (String c (a +:+ b)) "/") with false; [reflexivity |].
  symmetry. apply String.eqb_neq. intros Heq. injection Heq as _ Heq.
  destruct a; [done | discriminate Heq].
Qed.

(** [HLS_DIR] is never empty and never ends in a separator, so joining a
    file name to it puts exactly one separator between the two. *)
Lemma path_join_hls_dir cwd name :
  String.prefix "/" name = false ->
  Hls.path_join (Hls.HLS_DIR cwd) name = Hls.HLS_DIR cwd +:+ "/" +:+ name.
Proof.
  intros Hname. unfold Hls.path_join at 1. rewrite Hname.
  assert (String.eqb (Hls.HLS_DIR cwd) "" = false /\
          Hls.endswith (Hls.HLS_DIR cwd) "/" = false) as [-> ->];
    [| reflexivity].
  unfold Hls.HLS_DIR, Hls.path_join.
  replace (String.prefix "/" "hls") with false by reflexivity.
  destruct (String.eqb cwd "" || Hls.endswith cwd "/").
  - split; [by apply append_nonempty |].
    by rewrite endswith_append_sep.
  - split; [by apply append_nonempty |].
    by rewrite endswith_append_sep.
Qed.

(** X3. Whatever the working directory and the URLs, the last argument of
    the ffmpeg command is the manifest path [self.m3u8_file] that the
    startup probe watches, and the segment pattern before it lies in the
    same directory as the probe's [stream000.ts]: the f-strings of
    [_stream_video] and the [os.path.join]s agree.  The command names one
    input and maps the audio from it when the two URLs are equal, and names
    two and maps the audio from the second otherwise. *)
Theorem ffmpeg_writes_what_the_probe_watches cwd video_url audio_url
    resolution bitrate :
  let cmd := Hls._stream_video cwd video_url audio_url resolution bitrate in
  last cmd = Some (Hls.m3u8_file cwd) /\
  (exists dir,
     cmd !! (length cmd - 2)%nat = Some (dir +:+ "/stream%03d.ts") /\
     Hls.ts_path cwd = dir +:+ "/stream000.ts" /\
     Hls.m3u8_file cwd = dir +:+ "/stream.m3u8") /\
  (video_url = audio_url ->
   take 8 cmd =
     ["ffmpeg"; "-re"; "-i"; video_url;
      "-map"; "0:v:0"; "-map"; "0:a:0"] /\ length cmd = 35%nat) /\
  (video_url <> audio_url ->
   take 10 cmd =
     ["ffmpeg"; "-re"; "-i"; video_url; "-i"; audio_url;
      "-map"; "0:v:0"; "-map"; "1:a:0"] /\ length cmd = 37%nat).
Proof.
  cbv zeta. unfold Hls.m3u8_file, Hls.ts_path.
  rewrite !path_join_hls_dir by reflexivity.
  unfold Hls._stream_video.
  destruct (String.eqb video_url audio_url) eqn:Heq.
  - apply String.eqb_eq in Heq. subst audio_url.
    split; [reflexivity |]. split; [by exists (Hls.HLS_DIR cwd) |].
    split; [done |]. intros Hne. done.
  - apply String.eqb_neq in Heq.
    split; [reflexivity |]. split; [by exists (Hls.HLS_DIR cwd) |].
    split; [intros He; done | done].
Qed.

Lemma ffmpeg_writes_what_the_probe_watches_witness :
  take 8 (Hls._stream_video "/srv/app" "u" "u" "1280x720" "2500k") =
    ["ffmpeg"; "-re"; "-i"; "u"; "-map"; "0:v:0"; "-map"; "0:a:0"] /\
  length (Hls._stream_video "/srv/app" "u" "u" "1280x720" "2500k") = 35%nat.
Proof.
  apply (proj1 (proj2 (proj2 (ffmpeg_writes_what_the_probe_watches
           "/srv/app" "u" "u" "1280x720" "2500k")))).
  reflexivity.
Defined.

Lemma clean_loop_all_removable can_remove listing :
  (forall f, f ∈ listing -> Hls.is_segment_file f = true ->
             can_remove f = true) ->
  Hls.clean_loop can_remove listing =
  List.filter (fun f => negb (Hls.is_segment_file f)) listing.
Proof.
  induction listing as [| f rest IH]; intros Hrm; [reflexivity |].
  cbn. destruct (Hls.is_segment_file f) eqn:Hseg; cbn.
  - rewrite Hrm; [| by left | done]. apply IH.
    intros g Hg. apply Hrm. by right.
  - f_equal. apply IH. intros g Hg. apply Hrm. by right.
Qed.

(** X4. [_clean_hls_directory] never removes a file that ends in neither
    [.m3u8] nor [.ts] and adds none.  When every removal succeeds, exactly
    the files with these endings are gone, the manifest [stream.m3u8] and
    the first chunk [stream000.ts] among them, and the others keep their
    order.  A removal that fails ends the cleaning: that file and everything
    listed after it, stale segments included, stays. *)
Theorem clean_removes_segments_only can_remove listing :
  let after := Hls.clean_loop can_remove listing in
  (forall f, f ∈ listing -> Hls.is_segment_file f = false -> f ∈ after) /\
  (forall f, f ∈ after -> f ∈ listing) /\
  ((forall f, f ∈ listing -> Hls.is_segment_file f = true ->
              can_remove f = true) ->
   after = List.filter (fun f => negb (Hls.is_segment_file f)) listing /\
   (forall f, f ∈ after -> Hls.is_segment_file f = false) /\
   ("stream.m3u8" ∉ after) /\ ("stream000.ts" ∉ after)) /\
  (forall pre f rest,
     listing = pre ++ f :: rest ->
     (forall g, g ∈ pre -> Hls.is_segment_file g = true ->
                can_remove g = true) ->
     Hls.is_segment_file f = true -> can_remove f = false ->
     after =
       List.filter (fun f => negb (Hls.is_segment_file f)) pre ++ f :: rest).
Proof.
  cbv zeta. split; [| split; [| split]].
  - induction listing as [| g rest IH]; intros f Hin Hseg.
    + by apply elem_of_nil in Hin.
    + cbn. apply elem_of_cons in Hin as [-> | Hin].
      * rewrite Hseg. by left.
      * destruct (Hls.is_segment_file g); [destruct (can_remove g) |].
        -- by apply IH.
        -- by right.
        -- right. by apply IH.
  - induction listing as [| g rest IH]; intros f Hin; [done |].
    cbn in Hin. destruct (Hls.is_segment_file g);
      [destruct (can_remove g) |]; try done.
    + right. by apply IH.
    + apply elem_of_cons in Hin as [-> | Hin]; [by left |].
      right. by apply IH.
  - intros Hrm. rewrite clean_loop_all_removable by done.
    assert (Hno : forall f,
              f ∈ List.filter (fun f => negb (Hls.is_segment_file f)) listing ->
              Hls.is_segment_file f = false).
    { intros f Hf. apply list_elem_of_In, filter_In in Hf as [_ Hf].
      by apply negb_true_iff in Hf. }
    split; [reflexivity |]. split; [exact Hno |].
    split; intros Hin; apply Hno in Hin; discriminate Hin.
  - intros pre f rest -> Hpre Hseg Hfail.
    induction pre as [| g pre IH]; cbn.
    + by rewrite Hseg, Hfail.
    + destruct (Hls.is_segment_file g) eqn:Hg; cbn.
      * rewrite Hpre; [| by left | done]. apply IH.
        intros h Hh. apply Hpre. by right.
      * f_equal. apply IH. intros h Hh. apply Hpre. by right.
Qed.

Lemma clean_removes_segments_only_witness :
  Hls.clean_loop (fun _ => true)
    ["stream.m3u8"; "keep.txt"; "stream000.ts"; "stream001.ts"] =
  ["keep.txt"] /\
  Hls.clean_loop (fun f => negb (String.eqb f "stream000.ts"))
    (["stream.m3u8"; "keep.txt"] ++ "stream000.ts" :: ["stream001.ts"]) =
  ["keep.txt"; "stream000.ts"; "stream001.ts"].
Proof.
  split.
  - apply (proj1 (proj1 (proj2 (proj2 (clean_removes_segments_only
             (fun _ => true)
             ["stream.m3u8"; "keep.txt"; "stream000.ts"; "stream001.ts"])))
             (fun _ _ _ => eq_refl))).
  - apply (proj2 (proj2 (proj2 (clean_removes_segments_only
             (fun f => negb (String.eqb f "stream000.ts"))
             (["stream.m3u8"; "keep.txt"] ++ "stream000.ts" ::
                ["stream001.ts"]))))
             ["stream.m3u8"; "keep.txt"] "stream000.ts" ["stream001.ts"]);
      try reflexivity.
    intros g Hg _. apply elem_of_cons in Hg as [-> | Hg]; [reflexivity |].
    apply list_elem_of_singleton in Hg as ->. reflexivity.
Defined.

(** * The routes *)

Lemma handle_accepted r m :
  (Api.handle r m).2 =
  mkManager (ffmpeg_proc m) (playlist m) (current_index m)
    (command_queue m ++ Api.accepted r) (stop_event m) (stream_ready m).
Proof.
  destruct m as [pr pl i q st rd].
  destruct r as [command | video_num |]; cbn.
  - unfold Api.control_stream.
    destruct (String.eqb command "next"); [reflexivity |].
    destruct (String.eqb command "prev"); [reflexivity |].
    cbn. by rewrite app_nil_r.
  - unfold Api.control_skip. case_bool_decide; cbn; [| reflexivity].
    by rewrite app_nil_r.
  - by rewrite app_nil_r.
Qed.

Lemma serve_requests rs : forall m,
  Api.serve rs m =
  mkManager (ffmpeg_proc m) (playlist m) (current_index m)
    (command_queue m ++ arrivals (Api.requests rs))
    (stop_event m) (stream_ready m).
Proof.
  unfold Api.serve, Api.requests. cbn [arrivals].
  induction rs as [| r rs IH]; intros m; cbn.
  - destruct m. cbn. by rewrite app_nil_r.
  - rewrite IH, handle_accepted. cbn. by rewrite app_assoc.
Qed.

Lemma accepted_harmless r :
  Forall (fun c => c <> Stop /\ forall n, c = Skip n -> 1 <= n)
         (Api.accepted r).
Proof.
  destruct r as [command | video_num |]; cbn.
  - destruct (String.eqb command "next");
      [| destruct (String.eqb command "prev")];
      repeat constructor; discriminate.
  - case_bool_decide; repeat constructor; [discriminate |].
    intros n [= ->]. lia.
  - constructor.
Qed.

Lemma requests_harmless rs :
  Forall (fun c => c <> Stop /\ forall n, c = Skip n -> 1 <= n)
         (arrivals (Api.requests rs)).
Proof.
  cbn. induction rs as [| r rs IH]; cbn; [constructor |].
  apply Forall_app. split; [apply accepted_harmless | exact IH].
Qed.

(** X5. Requests to the routes of [app.py] change nothing of the manager
    but the queue, to whose end they append in the order of arrival.
    Nothing they append is ["stop"], and every skip they append has a
    number of at least one: the other requests are answered with an error
    and leave the queue alone.  The stop event is never set by a request. *)
Theorem requests_only_append_valid_commands rs m :
  Api.serve rs m =
    mkManager (ffmpeg_proc m) (playlist m) (current_index m)
      (command_queue m ++ arrivals (Api.requests rs))
      (stop_event m) (stream_ready m) /\
  Forall (fun c => c <> Stop /\ forall n, c = Skip n -> 1 <= n)
         (arrivals (Api.requests rs)) /\
  (forall command,
     command <> "next" -> command <> "prev" ->
     Api.handle (Api.ControlStream command) m =
       (Api.BadRequest "Invalid command", m)) /\
  (forall video_num,
     video_num < 1 ->
     Api.handle (Api.ControlSkip video_num) m =
       (Api.BadRequest "Invalid video number", m)).
Proof.
  split; [apply serve_requests |]. split; [apply requests_harmless |]. split.
  - intros command Hn Hp. cbn. unfold Api.control_stream.
    apply String.eqb_neq in Hn, Hp. by rewrite Hn, Hp.
  - intros video_num Hlt. cbn. unfold Api.control_skip.
    by rewrite bool_decide_eq_true_2.
Qed.

Lemma requests_only_append_valid_commands_witness :
  Api.handle (Api.ControlStream "stop") init_manager =
    (Api.BadRequest "Invalid command", init_manager) /\
  Api.handle (Api.ControlSkip 0) init_manager =
    (Api.BadRequest "Invalid video number", init_manager).
Proof.
  split.
  - apply (proj1 (proj2 (proj2 (requests_only_append_valid_commands
                                  [] init_manager)))); discriminate.
  - apply (proj2 (proj2 (proj2 (requests_only_append_valid_commands
                                  [] init_manager)))). lia.
Defined.

Lemma requests_do_not_ask_stop rs : asks_stop (Api.requests rs) = false.
Proof.
  unfold asks_stop. cbn [stop_set Api.requests orb].
  apply bool_decide_eq_false. intros Hin.
  pose proof (requests_harmless rs) as Hh. rewrite Forall_forall in Hh.
  destruct (Hh _ Hin) as [Hne _]. done.
Qed.

Lemma only_requests_no_stop oracle :
  Api.only_requests oracle -> existsb turn_asks_stop oracle = false.
Proof.
  induction 1 as [| [i env] oracle [[rs Hi] Htk] _ IH]; [reflexivity |].
  cbn [existsb]. rewrite IH, orb_false_r.
  unfold turn_asks_stop. cbn [fst snd] in *. rewrite Hi.
  rewrite requests_do_not_ask_stop. cbn [orb].
  induction Htk as [| k tk [rs' Hk] _ IHk]; [reflexivity |].
  cbn [existsb]. by rewrite Hk, requests_do_not_ask_stop, IHk.
Qed.

(** X6. No sequence of requests to the routes of [app.py] ends the worker:
    as long as no stop is pending at the start and everything other threads
    do comes from such requests, the worker has not returned when the oracle
    ends, whatever the resolver, the media locator and ffmpeg do.  Only
    [stop()], which no route calls, ends it. *)
Theorem requests_never_end_worker cfg oracle s :
  stop_pending s = false ->
  Api.only_requests oracle ->
  ctl_of (run (_stream_worker cfg oracle) s) = Starved.
Proof.
  intros Hs Ho. apply only_requests_no_stop in Ho.
  destruct (worker_returns_ready cfg oracle s) as [[Hc | Hc] Hn];
    [exact Hc |].
  destruct (Hn Hc) as [[H | H] _]; congruence.
Qed.

Lemma requests_never_end_worker_witness :
  ctl_of (run (_stream_worker Scenario.cfg
                 [(Api.requests [Api.ControlStream "stop";
                                 Api.ControlStream "next"],
                   Scenario.env_play
                     [mkTick (Api.requests [Api.ControlSkip 0;
                                            Api.ControlSkip 2]) false]);
                  (Api.requests [], Scenario.env_no_media)])
            init_manager) = Starved.
Proof.
  apply requests_never_end_worker; [reflexivity |].
  repeat constructor; cbn; eauto.
Defined.

(** * The startup probe, further *)

Lemma probe_loop_started timeout proc obs : forall m t,
  probe_loop timeout proc m t obs = Some Started ->
  (m = true \/
   exists o, o ∈ obs /\ elapsed o < timeout /\ m3u8_nonempty o = true) /\
  (t = true \/
   exists o, o ∈ obs /\ elapsed o < timeout /\ ts_nonempty o = true).
Proof.
  induction obs as [| o obs IH]; intros m t Hrun; [discriminate |].
  cbn in Hrun. case_bool_decide as Ht; [| discriminate].
  destruct ((if negb m && m3u8_nonempty o then true else m) &&
            (if negb t && ts_nonempty o then true else t)) eqn:Hboth.
  - apply andb_true_iff in Hboth as [Hm Hts]. split.
    + destruct m; [by left | right]. cbn in Hm.
      destruct (m3u8_nonempty o) eqn:Ho; [| discriminate].
      exists o. split; [by left | done].
    + destruct t; [by left | right]. cbn in Hts.
      destruct (ts_nonempty o) eqn:Ho; [| discriminate].
      exists o. split; [by left | done].
  - destruct (bool_decide (is_Some proc) && proc_exited o); [discriminate |].
    destruct (IH _ _ Hrun) as [Hm Hts]. split.
    + destruct Hm as [Hm | (o' & Hin & Ht' & Ho')].
      * destruct m; [by left | right]. cbn in Hm.
        destruct (m3u8_nonempty o) eqn:Ho; [| discriminate].
        exists o. split; [by left | done].
      * right. exists o'. split; [by right | done].
    + destruct Hts as [Hts | (o' & Hin & Ht' & Ho')].
      * destruct t; [by left | right]. cbn in Hts.
        destruct (ts_nonempty o) eqn:Ho; [| discriminate].
        exists o. split; [by left | done].
      * right. exists o'. split; [by right | done].
Qed.

Lemma probe_loop_unfinished timeout proc obs : forall m t,
  probe_loop timeout proc m t obs = None ->
  Forall (fun o => elapsed o < timeout) obs.
Proof.
  induction obs as [| o obs IH]; intros m t Hrun; [constructor |].
  cbn in Hrun. case_bool_decide as Ht; [| discriminate].
  destruct ((if negb m && m3u8_nonempty o then true else m) &&
            (if negb t && ts_nonempty o then true else t)); [discriminate |].
  destruct (bool_decide (is_Some proc) && proc_exited o); [discriminate |].
  constructor; [exact Ht | by eapply IH].
Qed.

(** X7. [_wait_for_stream] returns [True] only if the manifest was seen
    non-empty in some poll within the time limit and the first chunk was
    seen non-empty in some poll within the time limit.  Without a process
    handle it never gives up for a premature exit. *)
Theorem probe_success_is_sound proc obs :
  (_wait_for_stream proc obs = Some true ->
   (exists o, o ∈ obs /\ elapsed o < default_timeout /\
              m3u8_nonempty o = true) /\
   (exists o, o ∈ obs /\ elapsed o < default_timeout /\
              ts_nonempty o = true)) /\
  (proc = None ->
   probe_loop default_timeout proc false false obs <> Some Died).
Proof.
  split.
  - unfold _wait_for_stream. intros Hrun.
    destruct (probe_loop default_timeout proc false false obs) as [e |] eqn:He;
      [| discriminate].
    destruct e; try discriminate.
    destruct (probe_loop_started _ _ _ _ _ He) as [[? | Hm] [? | Hts]];
      done.
  - intros -> Hdied.
    destruct (probe_loop_died _ _ _ _ _ Hdied) as (_ & _ & _ & _ & Hp & _).
    by destruct Hp.
Qed.

Lemma probe_success_is_sound_witness :
  (exists o, o ∈ Scenario.files_appear /\ elapsed o < default_timeout /\
             m3u8_nonempty o = true) /\
  (exists o, o ∈ Scenario.files_appear /\ elapsed o < default_timeout /\
             ts_nonempty o = true).
Proof.
  apply (proj1 (probe_success_is_sound (Some 7%nat) Scenario.files_appear)).
  reflexivity.
Defined.

(** X8. The probe ends.  If every poll reads the clock at least half a
    second after the one before, as the [time.sleep(0.5)] between them
    makes it, [_wait_for_stream] returns within forty-one polls; and once a
    poll reads the clock at or past the time limit with the loop still
    running, the result is [False]. *)
Theorem probe_returns_within_41_polls proc obs :
  ((forall (k : nat) o, obs !! k = Some o -> 500 * Z.of_nat k <= elapsed o) ->
   (41 <= length obs)%nat ->
   is_Some (_wait_for_stream proc obs)) /\
  (forall pre o post,
     obs = pre ++ o :: post ->
     probe_loop default_timeout proc false false pre = None ->
     default_timeout <= elapsed o ->
     _wait_for_stream proc obs = Some false).
Proof.
  split.
  2:{ intros pre o post -> Hrun Ht. unfold _wait_for_stream.
      rewrite (probe_loop_app _ _ _ _ _ _ Hrun). cbn.
      rewrite bool_decide_eq_false_2 by lia. reflexivity. }
  intros Hclock Hlen. unfold _wait_for_stream.
  destruct (probe_loop default_timeout proc false false obs) as [e |] eqn:He;
    [by eexists |].
  apply probe_loop_unfinished in He. rewrite Forall_lookup in He.
  destruct (lookup_lt_is_Some_2 obs 40) as [o Ho]; [lia |].
  specialize (He _ _ Ho). specialize (Hclock _ _ Ho).
  unfold default_timeout in He. lia.
Qed.

Lemma probe_returns_within_41_polls_witness :
  is_Some (_wait_for_stream (Some 7%nat)
             ((fun k : nat => mkProbeObs (500 * Z.of_nat k) true false false)
                <$> seq 0 41)).
Proof.
  apply (proj1 (probe_returns_within_41_polls (Some 7%nat)
           ((fun k : nat => mkProbeObs (500 * Z.of_nat k) true false false)
              <$> seq 0 41))).
  - intros k o Ho. apply list_lookup_fmap_Some in Ho as (n & -> & Hn).
    apply lookup_seq in Hn as [-> _]. cbn [elapsed]. lia.
  - vm_compute. lia.
Defined.

(** * The worker, further *)

(** What steps 1 and 2 do to the queue and to the playlist. *)
Lemma select_video_detail cfg env f :
  let r := select_video cfg env f in
  command_queue (state_of r) = tail (command_queue (self f)) /\
  (playlist (state_of r) = playlist (self f) \/
   playlist (self f) = [] /\
   resolver env (url cfg) = Returns (playlist (state_of r))) /\
  (playlist (self f) <> [] -> trace_of r = []) /\
  Forall (fun e => e = EvFetch (url cfg) \/ e = EvSleep 60000) (trace_of r).
Proof.
  destruct f as [[pr pl i q st rd] c].
  unfold_worker. cbn.
  repeat (break_match; cbn).
  all: repeat split; intros; try discriminate; try done; auto.
  all: try (repeat constructor; auto; done).
  all: prop_bools; try done; auto.
Qed.

(** What the monitoring loop does to the queue, what it emits, and how it
    ends when a process is held. *)
Lemma wait_for_finish_detail (tk : list Tick) :
  forall f,
    let r := wait_for_finish tk f in
    (exists k : nat,
       (k <= length tk)%nat /\
       command_queue (state_of r) =
         command_queue (self f) ++ Count.arrived k tk) /\
    Forall (fun e => e = EvSleep 500 \/ exists p, e = EvTerminate p)
           (trace_of r) /\
    (forall p, ffmpeg_proc (self f) = Some p ->
               ctl_of r <> Raised /\
               (ctl_of r = Normal tt ->
                EvTerminate p ∈ trace_of r \/ existsb exited tk = true)).
Proof.
  induction tk as [| k tk IH]; intros [[pr pl i q st rd] c].
  - cbn. split; [| split; [constructor | done]].
    exists 0%nat. split; [lia |]. unfold Count.arrived. cbn.
    by rewrite app_nil_r.
  - destruct k as [[arr ss] ex].
    assert (Hone : q ++ arr = q ++ Count.arrived 1 (mkTick (mkInterference arr ss) ex :: tk)).
    { unfold Count.arrived. cbn. by rewrite app_nil_r. }
    cbn [wait_for_finish]. unfold_worker. cbn.
    destruct pr as [p |]; cbn.
    2:{ split; [| split; [constructor | done]].
        exists 1%nat. split; [lia | exact Hone]. }
    destruct ex; cbn.
    { split; [| split; [constructor |]].
      - exists 1%nat. split; [lia | exact Hone].
      - intros p' _. split; [done |]. intros _. by right. }
    destruct (st || ss) eqn:Hst; cbn.
    { split; [| split; [constructor; [right; eauto | constructor] |]].
      - exists 1%nat. split; [lia | exact Hone].
      - intros p' [= <-]. split; [done |]. intros _. left. constructor. }
    destruct (q ++ arr) eqn:Hq; cbn.
    2:{ split; [| split; [constructor; [right; eauto | constructor] |]].
        - exists 1%nat. split; [lia | exact Hone].
        - intros p' [= <-]. split; [done |]. intros _. left. constructor. }
    match goal with |- context [wait_for_finish tk ?f] =>
      specialize (IH f); destruct (wait_for_finish tk f) as [[c' f'] t'] end.
    cbn in IH. destruct IH as ((k & Hk & Hq') & Ht & Hp).
    assert (Hres : command_queue (self f') =
                   q ++ Count.arrived (S k)
                          (mkTick (mkInterference arr ss) false :: tk)).
    { unfold state_of in Hq'. cbn in Hq'. rewrite Hq'.
      unfold Count.arrived. cbn.
      apply app_eq_nil in Hq as [-> ->]. reflexivity. }
    destruct (Hp p eq_refl) as [Hnr Hn].
    unfold ctl_of, state_of, trace_of in *.
    destruct c' as [[] | | | |]; cbn in *.
    all: split; [exists (S k); split; [lia | exact Hres] |].
    all: split; [constructor; [by left | exact Ht] |].
    all: intros p' [= <-]; split; [done |]; intros Hc; try discriminate.
    destruct (Hn eq_refl) as [Hin | Hex]; [left; by right | by right].
Qed.

Lemma launched_app t1 t2 :
  Count.launched (t1 ++ t2) = Count.launched t1 ++ Count.launched t2.
Proof.
  induction t1 as [| e t1 IH]; [reflexivity |].
  destruct e; cbn; rewrite ?IH; reflexivity.
Qed.

Lemma launched_none t :
  Forall (fun e => Count.is_launch e = false) t -> Count.launched t = [].
Proof.
  induction 1 as [| e t He _ IH]; [reflexivity |].
  destruct e; cbn in *; try done.
Qed.

(** An invariant of the manager and a property of the events, kept by
    interference and by every cycle of the oracle, hold of the whole run. *)
Lemma worker_invariant (Inv : Manager -> Prop) (P : Event -> Prop) cfg
    (oracle : list (Interference * Env)) :
  (forall i s, Inv s -> Inv (state_of (interfere i (mkFrame s None)))) ->
  (forall s, Inv s -> Inv (with_ready s)) ->
  P (EvReady true) ->
  Forall (fun turn =>
            forall s, Inv s ->
              Inv (state_of (run (cycle cfg turn.2) s)) /\
              Forall P (trace_of (run (cycle cfg turn.2) s))) oracle ->
  forall f,
    Inv (self f) ->
    Inv (state_of (_stream_worker cfg oracle f)) /\
    Forall P (trace_of (_stream_worker cfg oracle f)).
Proof.
  intros Hint Hready Pready Hcycles.
  induction Hcycles as [| [i env] oracle Hcyc _ IH]; intros f Hf.
  - cbn. split; [exact Hf | constructor].
  - cbn [_stream_worker]. cbv [bind get set_stream_ready update emit].
    specialize (Hint i (self f) Hf).
    change (state_of (interfere i (mkFrame (self f) None)))
      with (state_of (interfere i f)) in Hint.
    destruct (interfere i f) as [[c0 f0] t0] eqn:Hi.
    assert (c0 = Normal tt /\ t0 = []) as [-> ->].
    { unfold interfere, update in Hi. by injection Hi as <- <- <-. }
    expose.
    destruct (stop_event (self f0)); expose.
    + split; [by apply Hready | repeat constructor; exact Pready].
    + unfold iteration. rewrite cycle_forgets_command.
      destruct (Hcyc (self f0) Hint) as [Hinv Htr]. cbn [snd] in *.
      destruct (run (cycle cfg env) (self f0)) as [[c1 f1] t1]. expose.
      destruct c1 as [[] | | | |]; expose; cbn [app]; try done.
      3: { split; [by apply Hready |].
           apply Forall_app. split; [exact Htr |].
           repeat constructor; exact Pready. }
      all: destruct (IH f1 Hinv) as [Hinv2 Htr2];
        destruct (_stream_worker cfg oracle f1) as [[c2 f2] t2]; expose;
        destruct c2 as [[] | | | |]; expose;
        (split; [exact Hinv2 | apply Forall_app; done]).
Qed.

(** X9. While a stream is live, [get_status] reports ["ready"] and a video
    number between one and the total, which is the playlist entry being
    played; a process handle is held. *)
Theorem live_status_is_ready_and_in_range cfg env s f1 t1 :
  go_live cfg env (mkFrame s None) = (Normal tt, f1, t1) ->
  let st := get_status (self f1) in
  status st = "ready" /\
  1 <= video st <= Z.of_nat (total st) /\
  video st = current_index (self f1) + 1 /\
  is_Some (playlist (self f1) !! Z.to_nat (video st - 1)) /\
  is_Some (ffmpeg_proc (self f1)).
Proof.
  intros Hlive. destruct (go_live_state _ _ _ _ _ Hlive) as (Hr & Hi & Hp).
  unfold get_status. rewrite Hr. cbn.
  rewrite bool_decide_eq_true_2 by lia.
  repeat split; try lia; try done.
  apply lookup_lt_is_Some. lia.
Qed.

Lemma live_status_is_ready_and_in_range_witness :
  status (get_status (mkManager (Some 7%nat) Scenario.abc 1 [] false true))
    = "ready" /\
  1 <= video (get_status (mkManager (Some 7%nat) Scenario.abc 1 [] false true))
    <= Z.of_nat (total (get_status
                   (mkManager (Some 7%nat) Scenario.abc 1 [] false true))).
Proof.
  destruct (live_status_is_ready_and_in_range Scenario.cfg
              (Scenario.env_play Scenario.plays_out)
              (Scenario.at_index 0 [Next])
              (mkFrame (mkManager (Some 7%nat) Scenario.abc 1 [] false true)
                       (Some "next"))
              [EvStart 1 "B"; EvClean; EvReady false;
               EvLaunch 7%nat "B/v" "B/a" "1280x720" "2500k";
               EvProbe true; EvReady true] eq_refl)
    as (Hs & Hv & _).
  split; [exact Hs | exact Hv].
Defined.

(** X10. Between cycles the status can run past the playlist.  When the
    last video, started without a command, plays to its end with nothing
    queued and no stop set, the cycle leaves the index at the playlist's
    length: until the next cycle wraps it, [get_status] reports video number
    [total + 1], and still ["ready"] although no process is held. *)
Theorem status_overshoots_after_last_video cfg env s f1 t1 (n : nat) rest :
  go_live cfg env (mkFrame s None) = (Normal tt, f1, t1) ->
  command f1 = None ->
  command_queue (self f1) = [] ->
  stop_event (self f1) = false ->
  ticks env = replicate n (mkTick quiet false) ++ mkTick quiet true :: rest ->
  current_index (self f1) + 1 = Z.of_nat (length (playlist (self f1))) ->
  let st := get_status (state_of (run (cycle cfg env) s)) in
  video st = Z.of_nat (total st) + 1 /\
  status st = "ready" /\
  ffmpeg_proc (state_of (run (cycle cfg env) s)) = None.
Proof.
  intros Hlive Hcmd Hq Hs Htk Hlast. cbv zeta.
  destruct (go_live_state _ _ _ _ _ Hlive) as (Hready & _ & _).
  destruct (natural_end_index cfg env s f1 t1 n rest Hlive Hq Hs Htk)
    as (Hc & _ & _ & _ & Hi).
  rewrite Hcmd in Hi. cbn [falsy] in Hi.
  destruct (cycle_shape cfg env s) as [Hst Hgo].
  destruct (attempt_after_go_live _ _ _ _ _ Hlive) as [Ha _].
  destruct (wait_for_finish_summary (ticks env) f1)
    as (Hc3 & _ & Hpl3 & _ & Hr3 & _).
  destruct (starved_or_not (ctl_of (attempt cfg env (mkFrame s None))))
    as [Hsv | Hns].
  { exfalso. rewrite (Hst Hsv) in Hc. congruence. }
  destruct (Hgo Hns) as (Hf & _).
  destruct (cleanup_summary (frame_of (attempt cfg env (mkFrame s None))))
    as (_ & Hp & Hpl & _ & _ & Hr & _).
  rewrite Ha in Hf, Hp, Hpl, Hr.
  destruct (wait_for_finish (ticks env) f1) as [[c3 f3] t3]. expose.
  unfold get_status. rewrite Hf, Hr, Hr3, Hready, Hpl, Hpl3, Hp.
  rewrite <- Hf, Hi. cbn.
  rewrite bool_decide_eq_true_2 by lia. split; [lia | done].
Qed.

Lemma status_overshoots_after_last_video_witness :
  video (get_status (state_of
    (run (cycle Scenario.cfg (Scenario.env_play Scenario.plays_out))
       (Scenario.at_index 2 [])))) =
  Z.of_nat (total (get_status (state_of
    (run (cycle Scenario.cfg (Scenario.env_play Scenario.plays_out))
       (Scenario.at_index 2 []))))) + 1 /\
  status (get_status (state_of
    (run (cycle Scenario.cfg (Scenario.env_play Scenario.plays_out))
       (Scenario.at_index 2 [])))) = "ready" /\
  ffmpeg_proc (state_of
    (run (cycle Scenario.cfg (Scenario.env_play Scenario.plays_out))
       (Scenario.at_index 2 []))) = None.
Proof.
  apply (status_overshoots_after_last_video Scenario.cfg
           (Scenario.env_play Scenario.plays_out) (Scenario.at_index 2 [])
           (mkFrame (mkManager (Some 7%nat) Scenario.abc 2 [] false true) None)
           [EvStart 2 "C"; EvClean; EvReady false;
            EvLaunch 7%nat "C/v" "C/a" "1280x720" "2500k";
            EvProbe true; EvReady true]
           1%nat []); reflexivity.
Defined.

(** X11. Steps of one wrap like arithmetic modulo the playlist's length.
    From an index inside the playlist, ["next"] leads to [(i + 1) mod len]
    and ["prev"] to [(i - 1) mod len]; and with nothing queued, an index
    between [-1] and [len], as the advance at the end of a cycle leaves it,
    is brought to [i mod len]. *)
Theorem single_step_wraps_modularly cfg env f :
  let len := Z.of_nat (length (playlist (self f))) in
  let i := current_index (self f) in
  (0 <= i < len ->
   (forall q, command_queue (self f) = Next :: q ->
      current_index (state_of (select_video cfg env f)) = (i + 1) mod len) /\
   (forall q, command_queue (self f) = Prev :: q ->
      current_index (state_of (select_video cfg env f)) = (i - 1) mod len)) /\
  (playlist (self f) <> [] -> -1 <= i <= len ->
   command_queue (self f) = [] ->
   current_index (state_of (select_video cfg env f)) = i mod len).
Proof.
  destruct f as [[pr pl i q st rd] c]. cbn [self playlist current_index
    command_queue]. cbv zeta.
  assert (Hwrap : forall j,
    0 < Z.of_nat (length pl) -> -1 <= j <= Z.of_nat (length pl) ->
    (if negb (bool_decide (0 <= j < Z.of_nat (length pl)))
     then if bool_decide (j >= Z.of_nat (length pl)) then 0
          else if bool_decide (j < 0) then Z.of_nat (length pl) - 1 else j
     else j) = j mod Z.of_nat (length pl)).
  { intros j Hlen Hj. repeat case_bool_decide; cbn; try lia.
    all: first
      [ apply (Z.mod_unique j (Z.of_nat (length pl)) 0); lia
      | apply (Z.mod_unique j (Z.of_nat (length pl)) (-1)); lia
      | apply (Z.mod_unique j (Z.of_nat (length pl)) 1); lia ]. }
  split; [intros Hi; split; intros q' -> | intros Hne Hi ->].
  - assert (Hnil : is_nil pl = false) by (destruct pl; [cbn in Hi; lia | done]).
    unfold_worker. cbn -[Z.modulo Z.of_nat length]. rewrite Hnil.
    cbn -[Z.modulo Z.of_nat length].
    rewrite <- (Hwrap (i + 1)) by lia.
    repeat case_bool_decide; cbn -[Z.of_nat length]; try reflexivity; lia.
  - assert (Hnil : is_nil pl = false) by (destruct pl; [cbn in Hi; lia | done]).
    unfold_worker. cbn -[Z.modulo Z.of_nat length]. rewrite Hnil.
    cbn -[Z.modulo Z.of_nat length].
    rewrite <- (Hwrap (i - 1)) by lia.
    repeat case_bool_decide; cbn -[Z.of_nat length]; try reflexivity; lia.
  - assert (Hnil : is_nil pl = false) by (by destruct pl).
    assert (Hlen : 0 < Z.of_nat (length pl)) by (destruct pl; cbn; [done | lia]).
    unfold_worker. cbn -[Z.modulo Z.of_nat length]. rewrite Hnil.
    cbn -[Z.modulo Z.of_nat length].
    rewrite <- (Hwrap i) by lia.
    repeat case_bool_decide; cbn -[Z.of_nat length]; try reflexivity; lia.
Qed.

Lemma single_step_wraps_modularly_witness :
  current_index (state_of
    (select_video Scenario.cfg Scenario.env_no_media
       (mkFrame (Scenario.at_index 2 [Next]) None))) = (2 + 1) mod 3 /\
  current_index (state_of
    (select_video Scenario.cfg Scenario.env_no_media
       (mkFrame (Scenario.at_index 0 [Prev]) None))) = (0 - 1) mod 3 /\
  current_index (state_of
    (select_video Scenario.cfg Scenario.env_no_media
       (mkFrame (Scenario.at_index 3 []) None))) = 3 mod 3.
Proof.
  split; [| split].
  - apply (proj1 (proj1 (single_step_wraps_modularly Scenario.cfg
             Scenario.env_no_media (mkFrame (Scenario.at_index 2 [Next]) None))
             ltac:(cbn; lia)) []). reflexivity.
  - apply (proj2 (proj1 (single_step_wraps_modularly Scenario.cfg
             Scenario.env_no_media (mkFrame (Scenario.at_index 0 [Prev]) None))
             ltac:(cbn; lia)) []). reflexivity.
  - apply (proj2 (single_step_wraps_modularly Scenario.cfg
             Scenario.env_no_media (mkFrame (Scenario.at_index 3 []) None)));
      [discriminate | cbn; lia | reflexivity].
Defined.






Lemma cycle_no_fetch cfg env s :
  playlist s <> [] ->
  playlist (state_of (run (cycle cfg env) s)) = playlist s /\
  Forall (fun e => Count.is_fetch e = false)
         (trace_of (run (cycle cfg env) s)).
Proof.
  intros Hne. split.
  { destruct (cycle_tracked cfg env s) as ((P & _) & _). by apply P. }
  assert (Ha : Forall (fun e => Count.is_fetch e = false)
                 (trace_of (attempt cfg env (mkFrame s None)))).
  { rewrite attempt_shape.
    destruct (select_video_detail cfg env (mkFrame s None))
      as (_ & _ & Ht1 & _). specialize (Ht1 Hne).
    destruct (start_stream_detail cfg env
                (frame_of (select_video cfg env (mkFrame s None))))
      as (_ & _ & Ht2 & _).
    destruct (wait_for_finish_detail (ticks env)
                (frame_of (start_stream cfg env
                   (frame_of (select_video cfg env (mkFrame s None))))))
      as (_ & Ht3 & _).
    assert (Ht3' : Forall (fun e => Count.is_fetch e = false)
              (trace_of (wait_for_finish (ticks env)
                 (frame_of (start_stream cfg env
                    (frame_of (select_video cfg env (mkFrame s None)))))))).
    { eapply Forall_impl; [exact Ht3 |]. by intros e [-> | [p ->]]. }
    unfold trace_of, frame_of in *.
    destruct (ctl_of (select_video cfg env _)) as [[] | | | |];
      try (rewrite Ht1; constructor).
    destruct (ctl_of (start_stream cfg env _)) as [[] | | | |];
      cbn [fst snd]; rewrite Ht1; cbn [app]; try done.
    by apply Forall_app. }
  destruct (cycle_shape cfg env s) as [Hst Hgo].
  destruct (starved_or_not (ctl_of (attempt cfg env (mkFrame s None))))
    as [Hs | Hns].
  - by rewrite (Hst Hs).
  - destruct (Hgo Hns) as (_ & _ & ->).
    destruct (cleanup_summary (frame_of (attempt cfg env (mkFrame s None))))
      as (_ & _ & _ & _ & _ & _ & _ & ->).
    apply Forall_app. split; [exact Ha |]. apply Forall_app. split.
    + destruct (ctl_of _); try constructor.
      destruct (ffmpeg_proc _); repeat constructor.
    + destruct (is_nil _); repeat constructor.
Qed.

(** X13. A playlist, once there, is never resolved again: in every run of
    the worker that starts with a playlist, [_get_playlist_videos] is not
    called and the playlist at the end is the one at the start, whatever
    happens meanwhile.  Videos added to the source later are not picked
    up. *)
Theorem playlist_is_never_refetched cfg oracle s :
  playlist s <> [] ->
  let r := run (_stream_worker cfg oracle) s in
  playlist (state_of r) = playlist s /\
  Forall (fun e => Count.is_fetch e = false) (trace_of r).
Proof.
  intros Hne. cbv zeta. unfold run.
  apply (worker_invariant (fun s' => playlist s' = playlist s)
           (fun e => Count.is_fetch e = false)); try done.
  apply Forall_forall. intros [i env] _ s' Hs'. cbn [snd].
  rewrite <- Hs' in Hne.
  destruct (cycle_no_fetch cfg env s' Hne) as [Hp Ht].
  split; [congruence | exact Ht].
Qed.

Lemma playlist_is_never_refetched_witness :
  playlist (state_of (run (_stream_worker Scenario.cfg
                             [(quiet, Scenario.env_no_playlist)])
                        (Scenario.at_index 0 []))) = Scenario.abc /\
  Forall (fun e => Count.is_fetch e = false)
    (trace_of (run (_stream_worker Scenario.cfg
                      [(quiet, Scenario.env_no_playlist)])
                 (Scenario.at_index 0 []))).
Proof.
  apply (playlist_is_never_refetched Scenario.cfg
           [(quiet, Scenario.env_no_playlist)] (Scenario.at_index 0 [])).
  discriminate.
Defined.

(** X14. A cycle that has run to its end holds no process, and when it
    leaves the queue empty its last act is the three-second sleep: the loop
    never spins, not even when every cycle fails at once.  After an
    exception the ten-second sleep of the handler comes before it. *)
Theorem cycle_ends_with_a_pause cfg env s :
  let a := attempt cfg env (mkFrame s None) in
  let r := run (cycle cfg env) s in
  ctl_of r <> Starved ->
  ffmpeg_proc (state_of r) = None /\
  (command_queue (state_of r) = [] ->
   exists t, trace_of r = t ++ [EvSleep 3000]) /\
  (ctl_of a = Raised ->
   command_queue (state_of r) = [] ->
   exists t, trace_of r = t ++ [EvSleep 10000; EvSleep 3000]).
Proof.
  cbv zeta. intros Hns.
  destruct (cycle_shape cfg env s) as [Hst Hgo].
  assert (Hns' : ctl_of (attempt cfg env (mkFrame s None)) <> Starved).
  { intros Hs. apply Hns. by rewrite (Hst Hs). }
  destruct (Hgo Hns') as (Hf & _ & Ht).
  destruct (cleanup_summary (frame_of (attempt cfg env (mkFrame s None))))
    as (_ & Hp & _ & Hq & _ & _ & _ & Htc).
  unfold state_of, frame_of in *. rewrite Hf.
  split; [exact Hp |]. rewrite Ht, Htc, Hq. split.
  - intros ->. cbn [is_nil]. eexists. by rewrite !app_assoc.
  - intros -> ->. cbn [is_nil].
    exists (trace_of (attempt cfg env (mkFrame s None)) ++
            match ffmpeg_proc
                    (self (attempt cfg env (mkFrame s None)).1.2) with
            | Some p => [EvTerminate p]
            | None => []
            end).
    by rewrite <- !app_assoc.
Qed.

Lemma cycle_ends_with_a_pause_witness :
  ffmpeg_proc (state_of (run (cycle Scenario.cfg Scenario.env_no_ffmpeg)
                           (Scenario.at_index 0 []))) = None /\
  exists t, trace_of (run (cycle Scenario.cfg Scenario.env_no_ffmpeg)
                        (Scenario.at_index 0 [])) =
            t ++ [EvSleep 10000; EvSleep 3000].
Proof.
  destruct (cycle_ends_with_a_pause Scenario.cfg Scenario.env_no_ffmpeg
              (Scenario.at_index 0 [])) as (Hp & _ & Ht).
  - discriminate.
  - split; [exact Hp |]. apply Ht; reflexivity.
Defined.

Lemma launched_quiet t :
  Forall (fun e => e = EvSleep 500 \/ exists p, e = EvTerminate p) t ->
  Count.launched t = [].
Proof.
  intros H. apply launched_none. eapply Forall_impl; [exact H |].
  by intros e [-> | [p ->]].
Qed.

Lemma launched_passive t : Forall passive t -> Count.launched t = [].
Proof.
  intros H. apply launched_none. eapply Forall_impl; [exact H |].
  by intros [] He.
Qed.

(** What the [try] suite launches, and what becomes of it. *)
Lemma attempt_launches cfg env f :
  let a := attempt cfg env f in
  Count.launched (trace_of a) = [] \/
  exists p,
    Count.launched (trace_of a) = [p] /\
    (ctl_of a = Starved \/
     EvTerminate p ∈ trace_of a \/
     ctl_of a = Normal tt /\ existsb exited (ticks env) = true \/
     ctl_of a = Raised /\ ffmpeg_proc (state_of a) = Some p).
Proof.
  cbv zeta. rewrite attempt_shape.
  destruct (select_video_tracked cfg env f) as ((_ & _ & _ & _ & _) & _).
  destruct (select_video_summary cfg env f) as (_ & _ & _ & _ & Ht1 & _).
  apply launched_passive in Ht1.
  destruct (start_stream_detail cfg env (frame_of (select_video cfg env f)))
    as (_ & _ & _ & Hl2 & _).
  destruct (wait_for_finish_detail (ticks env)
              (frame_of (start_stream cfg env
                           (frame_of (select_video cfg env f)))))
    as (_ & Ht3 & Hp3).
  pose proof (launched_quiet _ Ht3) as Hl3.
  unfold ctl_of, state_of, trace_of, frame_of in *.
  destruct ((select_video cfg env f).1.1) as [[] | | | |];
    try (left; exact Ht1).
  destruct Hl2 as [Hl2 | (p & Hl2 & Hcase)].
  - left. destruct ((start_stream cfg env _).1.1) as [[] | | | |];
      cbn [fst snd]; rewrite !launched_app, ?Ht1, ?Hl2, ?Hl3; reflexivity.
  - right. exists p.
    destruct Hcase as [[Hc Hproc] | [[Hc Hterm] | [[Hc Hproc] | Hc]]];
      rewrite Hc;
      cbn [fst snd]; rewrite !launched_app, ?Ht1, ?Hl2, ?Hl3;
      (split; [reflexivity |]).
    + destruct (Hp3 p Hproc) as [Hnr Hn].
      destruct ((wait_for_finish (ticks env) _).1.1) as [[] | | | |] eqn:Hc3.
      * right. destruct (Hn eq_refl) as [Hin | Hex].
        -- left. apply elem_of_app. right. apply elem_of_app. by right.
        -- right. left. done.
      * right. left. exfalso.
        destruct (wait_for_finish_summary (ticks env)
                    (start_stream cfg env (select_video cfg env f).1.2).1.2)
          as ([H | [H | H]] & _); unfold ctl_of in H; congruence.
      * right. left. exfalso.
        destruct (wait_for_finish_summary (ticks env)
                    (start_stream cfg env (select_video cfg env f).1.2).1.2)
          as ([H | [H | H]] & _); unfold ctl_of in H; congruence.
      * done.
      * by left.
    + right. left. apply elem_of_app. by right.
    + right. right. right. done.
    + by left.
Qed.

(** X15. No process is left behind.  A cycle launches at most one process,
    and when the cycle has run to its end, a process it launched was
    terminated by the worker or had been seen exited by the monitoring loop;
    the handle is cleared. *)
Theorem launched_process_is_ended cfg env s :
  let r := run (cycle cfg env) s in
  (length (Count.launched (trace_of r)) <= 1)%nat /\
  (ctl_of r <> Starved ->
   ffmpeg_proc (state_of r) = None /\
   forall p, p ∈ Count.launched (trace_of r) ->
     EvTerminate p ∈ trace_of r \/ existsb exited (ticks env) = true).
Proof.
  cbv zeta.
  pose proof (attempt_launches cfg env (mkFrame s None)) as Ha.
  destruct (cycle_shape cfg env s) as [Hst Hgo].
  destruct (starved_or_not (ctl_of (attempt cfg env (mkFrame s None))))
    as [Hs | Hns].
  { rewrite (Hst Hs). split; [| by intros ?].
    destruct Ha as [-> | (p & -> & _)]; cbn; lia. }
  destruct (Hgo Hns) as (Hf & Hc & Ht).
  destruct (cleanup_summary (frame_of (attempt cfg env (mkFrame s None))))
    as (_ & Hp & _ & _ & _ & _ & _ & Htc).
  assert (Hrest : Count.launched
            (match ctl_of (attempt cfg env (mkFrame s None)) with
             | Raised =>
                 match ffmpeg_proc
                         (state_of (attempt cfg env (mkFrame s None))) with
                 | Some p => [EvTerminate p]
                 | None => []
                 end ++ [EvSleep 10000]
             | _ => []
             end ++
             trace_of (cleanup (frame_of (attempt cfg env (mkFrame s None)))))
            = []).
  { rewrite Htc, launched_app.
    destruct (ctl_of _); destruct (is_nil _); try reflexivity;
      destruct (ffmpeg_proc _); reflexivity. }
  rewrite Ht, launched_app, Hrest, app_nil_r.
  split.
  { destruct Ha as [-> | (p & -> & _)]; cbn; lia. }
  intros _. split.
  { unfold state_of, frame_of in *. by rewrite Hf. }
  intros p Hin.
  destruct Ha as [Hnone | (p' & Hone & Hcase)].
  { rewrite Hnone in Hin. by apply elem_of_nil in Hin. }
  rewrite Hone in Hin. apply list_elem_of_singleton in Hin as ->.
  destruct Hcase as [Hs | [Hterm | [[_ Hex] | [Hr Hproc]]]];
    [done | | by right |].
  - left. apply elem_of_app. by left.
  - left. apply elem_of_app. right. rewrite Hr, Hproc.
    apply elem_of_app. left. apply elem_of_app. left. constructor.
Qed.

Lemma launched_process_is_ended_witness :
  ffmpeg_proc (state_of
    (run (cycle Scenario.cfg (Scenario.env_play Scenario.next_pressed))
       (Scenario.at_index 0 []))) = None /\
  (EvTerminate 7%nat ∈ trace_of
     (run (cycle Scenario.cfg (Scenario.env_play Scenario.next_pressed))
        (Scenario.at_index 0 [])) \/
   existsb exited (ticks (Scenario.env_play Scenario.next_pressed)) = true).
Proof.
  destruct (proj2 (launched_process_is_ended Scenario.cfg
              (Scenario.env_play Scenario.next_pressed)
              (Scenario.at_index 0 []))) as [Hp Hl].
  - discriminate.
  - split; [exact Hp |]. apply Hl. vm_compute. constructor.
Defined.

(** With nothing queued and the index inside the playlist, a cycle begins
    by starting the video at the index. *)
Lemma idle_cycle_starts_current cfg env s u :
  command_queue s = [] ->
  0 <= current_index s < Z.of_nat (length (playlist s)) ->
  playlist s !! Z.to_nat (current_index s) = Some u ->
  exists t, trace_of (run (cycle cfg env) s) = EvStart (current_index s) u :: t.
Proof.
  intros Hq Hi Hu.
  assert (Ha : exists t, trace_of (attempt cfg env (mkFrame s None)) =
                         EvStart (current_index s) u :: t).
  { rewrite attempt_shape. rewrite select_video_idle by done.
    destruct (start_stream_summary cfg env (mkFrame s None) Hi)
      as (_ & _ & _ & _ & _ & (u' & t & Ht & Hu' & _) & _).
    cbn [self] in *. rewrite Hu in Hu'. injection Hu' as <-.
    unfold ctl_of, trace_of, frame_of in *. cbn [fst snd].
    destruct ((start_stream cfg env _).1.1) as [[] | | | |];
      cbn [fst snd app]; rewrite Ht; eauto. }
  destruct Ha as [t Ht].
  destruct (cycle_shape cfg env s) as [Hst Hgo].
  destruct (starved_or_not (ctl_of (attempt cfg env (mkFrame s None))))
    as [Hs | Hns].
  - rewrite (Hst Hs). eauto.
  - destruct (Hgo Hns) as (_ & _ & ->). rewrite Ht. cbn [app]. eauto.
Qed.

(** X16. When the startup probe fails, by timeout or because the process
    died, the worker terminates the process all the same; readiness stays
    down and the handle is cleared.  The cycle leaves by [continue] with the
    index on the video that steps 1 and 2 chose, whatever is queued:
    [command = 'next'] switches the advance off.  The three-second sleep is
    skipped when a command was waiting behind the one taken, and taken when
    the queue is empty at the end; the next cycle, finding nothing queued,
    then starts the same video again. *)
Theorem startup_failure_terminates_and_retries cfg env s f0 t0 u v a p :
  select_video cfg env (mkFrame s None) = (Normal tt, f0, t0) ->
  playlist (self f0) !! Z.to_nat (current_index (self f0)) = Some u ->
  locator env u (format (preset cfg)) = Returns (Some v, Some a) ->
  v <> "" -> a <> "" ->
  popen env = Returns p ->
  _wait_for_stream (Some p) (probe_obs env) = Some false ->
  let r := run (cycle cfg env) s in
  ctl_of r = Continue /\
  (exists pause,
     trace_of r =
       t0 ++
       [EvStart (current_index (self f0)) u; EvClean; EvReady false;
        EvLaunch p v a (resolution (preset cfg)) (bitrate (preset cfg));
        EvProbe false; EvTerminate p] ++ pause /\
     (command_queue (state_of r) = [] -> pause = [EvSleep 3000]) /\
     (command_queue (self f0) <> [] -> pause = [])) /\
  stream_ready (state_of r) = false /\
  ffmpeg_proc (state_of r) = None /\
  current_index (state_of r) = current_index (self f0) /\
  (command_queue (state_of r) = [] ->
   forall env', exists t,
     trace_of (run (cycle cfg env') (state_of r)) =
     EvStart (current_index (self f0)) u :: t).
Proof.
  intros Hsel Hu Hloc Hv Ha Hpop Hprobe. cbv zeta.
  destruct (select_video_tracked cfg env (mkFrame s None))
    as (_ & _ & _ & Hi & _).
  rewrite Hsel in Hi. expose. specialize (Hi eq_refl).
  assert (Hcycle :
    run (cycle cfg env) s =
    (Continue,
     mkFrame (mkManager None (playlist (self f0)) (current_index (self f0))
                (command_queue (self f0)) (stop_event (self f0)) false)
             (Some "next"),
     t0 ++
     [EvStart (current_index (self f0)) u; EvClean; EvReady false;
      EvLaunch p v a (resolution (preset cfg)) (bitrate (preset cfg));
      EvProbe false; EvTerminate p] ++
     (if is_nil (command_queue (self f0)) then [EvSleep 3000] else []))).
  { unfold run, cycle, try_except_finally, attempt. cbv [bind set_command].
    cbn [self]. rewrite Hsel.
    destruct f0 as [[pr pl i q st rd] c]. cbn in Hi, Hu |- *.
    unfold_worker. cbn. rewrite (subscript_lookup _ _ _ Hi Hu). cbn.
    rewrite Hloc. cbn.
    rewrite !bool_decide_eq_false_2 by done. cbn.
    rewrite Hpop. cbn. rewrite Hprobe. cbn.
    destruct q; cbn; rewrite ?bool_decide_eq_false_2 by done; cbn;
      rewrite ?app_nil_r, <- ?app_assoc; done. }
  rewrite Hcycle. expose. cbn [self command_queue stream_ready ffmpeg_proc
    current_index].
  split; [done |]. split.
  { eexists. split; [reflexivity |].
    split; [by intros -> | by destruct (command_queue (self f0))]. }
  repeat split; try done.
  intros Hq env'.
  exact (idle_cycle_starts_current cfg env'
           (mkManager None (playlist (self f0)) (current_index (self f0))
              (command_queue (self f0)) (stop_event (self f0)) false)
           u Hq Hi Hu).
Qed.

Lemma startup_failure_terminates_and_retries_witness :
  trace_of (run (cycle Scenario.cfg Scenario.env_dies_early)
              (Scenario.at_index 0 [Next; Prev])) =
    [] ++
    [EvStart 1 "B"; EvClean; EvReady false;
     EvLaunch 7%nat "B/v" "B/a" "1280x720" "2500k";
     EvProbe false; EvTerminate 7%nat] ++ [] /\
  current_index (state_of
    (run (cycle Scenario.cfg Scenario.env_dies_early)
       (Scenario.at_index 0 [Next; Prev]))) = 1 /\
  trace_of (run (cycle Scenario.cfg Scenario.env_dies_early)
              (Scenario.at_index 1 [])) =
    [] ++
    [EvStart 1 "B"; EvClean; EvReady false;
     EvLaunch 7%nat "B/v" "B/a" "1280x720" "2500k";
     EvProbe false; EvTerminate 7%nat] ++ [EvSleep 3000] /\
  exists t,
    trace_of (run (cycle Scenario.cfg Scenario.env_no_media)
                (state_of (run (cycle Scenario.cfg Scenario.env_dies_early)
                             (Scenario.at_index 1 [])))) =
    EvStart 1 "B" :: t.
Proof.
  destruct (startup_failure_terminates_and_retries Scenario.cfg
              Scenario.env_dies_early (Scenario.at_index 0 [Next; Prev])
              (mkFrame (mkManager None Scenario.abc 1 [Prev] false false)
                       (Some "next"))
              [] "B" "B/v" "B/a" 7%nat eq_refl eq_refl eq_refl)
    as (_ & (pause & Ht & _ & Hbusy) & _ & _ & Hi & _);
    try reflexivity; try discriminate.
  rewrite (Hbusy ltac:(discriminate)) in Ht.
  destruct (startup_failure_terminates_and_retries Scenario.cfg
              Scenario.env_dies_early (Scenario.at_index 1 [])
              (mkFrame (Scenario.at_index 1 []) None)
              [] "B" "B/v" "B/a" 7%nat eq_refl eq_refl eq_refl)
    as (_ & (pause' & Ht' & Hidle & _) & _ & _ & _ & Hnext);
    try reflexivity; try discriminate.
  rewrite (Hidle eq_refl) in Ht'.
  split; [exact Ht |]. split; [exact Hi |]. split; [exact Ht' |].
  exact (Hnext eq_refl Scenario.env_no_media).
Defined.

(** X17. When [Popen] raises, nothing was launched and no handle is held:
    the handler sleeps ten seconds without terminating anything, readiness
    stays down, and with no command taken or queued and no stop set the
    [finally] suite moves the index on by one, so the next cycle tries the
    following video. *)
Theorem launch_failure_moves_on cfg env s u v a :
  command_queue s = [] ->
  stop_event s = false ->
  ffmpeg_proc s = None ->
  0 <= current_index s < Z.of_nat (length (playlist s)) ->
  playlist s !! Z.to_nat (current_index s) = Some u ->
  locator env u (format (preset cfg)) = Returns (Some v, Some a) ->
  v <> "" -> a <> "" ->
  popen env = Raises ->
  let r := run (cycle cfg env) s in
  ctl_of r = Normal tt /\
  trace_of r =
    [EvStart (current_index s) u; EvClean; EvReady false;
     EvSleep 10000; EvSleep 3000] /\
  stream_ready (state_of r) = false /\
  ffmpeg_proc (state_of r) = None /\
  current_index (state_of r) = current_index s + 1.
Proof.
  intros Hq Hs Hp Hi Hu Hloc Hv Ha Hpop. cbv zeta.
  unfold run, cycle, try_except_finally, attempt. cbv [bind set_command].
  cbn [self]. rewrite select_video_idle by done.
  destruct s as [pr pl i q st rd]. cbn in Hq, Hs, Hp, Hi, Hu. subst q st pr.
  unfold_worker. cbn. rewrite (subscript_lookup _ _ _ Hi Hu). cbn.
  rewrite Hloc. cbn.
  rewrite !bool_decide_eq_false_2 by done. cbn.
  rewrite Hpop. cbn. done.
Qed.

Lemma launch_failure_moves_on_witness :
  ctl_of (run (cycle Scenario.cfg Scenario.env_no_ffmpeg)
            (Scenario.at_index 1 [])) = Normal tt /\
  current_index (state_of (run (cycle Scenario.cfg Scenario.env_no_ffmpeg)
                             (Scenario.at_index 1 []))) = 1 + 1.
Proof.
  destruct (launch_failure_moves_on Scenario.cfg Scenario.env_no_ffmpeg
              (Scenario.at_index 1 []) "B" "B/v" "B/a")
    as (Hc & _ & _ & _ & Hi); try reflexivity; try discriminate.
  - cbn. lia.
  - split; [exact Hc | exact Hi].
Defined.

Lemma cycle_playlist_source cfg env s :
  playlist (state_of (run (cycle cfg env) s)) = playlist s \/
  playlist s = [] /\
  resolver env (url cfg) =
    Returns (playlist (state_of (run (cycle cfg env) s))).
Proof.
  assert (Ha : playlist (state_of (attempt cfg env (mkFrame s None))) =
               playlist (state_of (select_video cfg env (mkFrame s None)))).
  { rewrite attempt_shape.
    destruct (start_stream_detail cfg env
                (frame_of (select_video cfg env (mkFrame s None))))
      as (_ & Hp2 & _).
    destruct (wait_for_finish_summary (ticks env)
                (frame_of (start_stream cfg env
                   (frame_of (select_video cfg env (mkFrame s None))))))
      as (_ & _ & Hp3 & _).
    unfold ctl_of, state_of, frame_of in *.
    destruct ((select_video cfg env _).1.1) as [[] | | | |]; try reflexivity.
    destruct ((start_stream cfg env _).1.1) as [[] | | | |];
      cbn [fst snd]; congruence. }
  assert (Hr : playlist (state_of (run (cycle cfg env) s)) =
               playlist (state_of (attempt cfg env (mkFrame s None)))).
  { destruct (cycle_shape cfg env s) as [Hst Hgo].
    destruct (starved_or_not (ctl_of (attempt cfg env (mkFrame s None))))
      as [Hs | Hns]; [by rewrite (Hst Hs) |].
    destruct (Hgo Hns) as (Hf & _).
    destruct (cleanup_summary (frame_of (attempt cfg env (mkFrame s None))))
      as (_ & _ & Hpl & _).
    unfold state_of, frame_of in *. by rewrite Hf, Hpl. }
  rewrite Hr, Ha.
  destruct (select_video_detail cfg env (mkFrame s None)) as (_ & Hp & _).
  exact Hp.
Qed.

(** X18. A source that is not a playlist is played in a loop.  When
    [_get_playlist_videos] runs over an [extract_info] that reports no
    playlist for the configured URL, a worker that starts without a
    playlist, or with the one-entry playlist of that URL, never starts
    anything but that URL, at index 0. *)
Theorem single_video_loops cfg oracle s extract :
  playlist s = [] \/ playlist s = [url cfg] ->
  extract (url cfg) = Returns (Some Resolve.NotPlaylist) ->
  Forall (fun turn : Interference * Env =>
            resolver turn.2 (url cfg) =
            Resolve.resolver_over extract (url cfg)) oracle ->
  Forall (fun e => forall i u, e = EvStart i u -> i = 0 /\ u = url cfg)
         (trace_of (run (_stream_worker cfg oracle) s)).
Proof.
  intros Hs Hex Hres. unfold run.
  apply (worker_invariant
           (fun s' => playlist s' = [] \/ playlist s' = [url cfg])
           (fun e => forall i u, e = EvStart i u -> i = 0 /\ u = url cfg));
    try done.
  apply Forall_forall. intros [i env] Hin s' Hs'. cbn [snd].
  rewrite Forall_forall in Hres. specialize (Hres _ Hin). cbn [snd] in Hres.
  unfold Resolve.resolver_over in Hres. rewrite Hex in Hres. cbn in Hres.
  assert (Hinv : playlist (state_of (run (cycle cfg env) s')) = [] \/
                 playlist (state_of (run (cycle cfg env) s')) = [url cfg]).
  { destruct (cycle_playlist_source cfg env s') as [-> | [_ Hsrc]];
      [exact Hs' |].
    rewrite Hres in Hsrc. injection Hsrc as <-. by right. }
  split; [exact Hinv |].
  destruct (cycle_tracked cfg env s') as ((_ & E & _) & _).
  apply Forall_forall. intros e He j u ->.
  destruct (E _ _ He) as [Hr Hl].
  destruct Hinv as [Hp | Hp]; rewrite Hp in Hr, Hl; cbn in Hr; [lia |].
  assert (j = 0) as -> by lia. cbn in Hl. by injection Hl as <-.
Qed.

Lemma single_video_loops_witness :
  Forall (fun e => forall i u, e = EvStart i u -> i = 0 /\ u = "PL")
    (trace_of (run (_stream_worker Scenario.cfg
        [(quiet,
          mkEnv (Resolve.resolver_over
                   (fun _ => Returns (Some Resolve.NotPlaylist)))
            Scenario.found (Returns 7%nat) Scenario.files_appear false
            Scenario.plays_out);
         (quiet,
          mkEnv (Resolve.resolver_over
                   (fun _ => Returns (Some Resolve.NotPlaylist)))
            Scenario.found (Returns 7%nat) Scenario.files_appear false
            Scenario.plays_out)])
       init_manager)).
Proof.
  apply (single_video_loops Scenario.cfg _ init_manager
           (fun _ => Returns (Some Resolve.NotPlaylist)));
    [by left | reflexivity | repeat constructor].
Defined.

Lemma interfere_quiet f : interfere quiet f = (Normal tt, f, []).
Proof.
  destruct f as [[pr pl i q st rd] c]. unfold interfere, update, quiet. cbn.
  by rewrite app_nil_r, orb_false_r.
Qed.

(** X19. A stop seen while a video is live ends the worker.  When a poll of
    the monitoring loop finds the stop event set, whether or not the
    ["stop"] that [stop()] queues after setting the event has arrived, the
    process is terminated unless it has exited already, the index is not
    advanced and the handle is cleared; the cycle skips its three-second
    sleep when something is on the queue by then, and sleeps when the queue
    is empty at its end.  The loop condition then ends the worker without
    another video being started, and [get_status] reports ["ready"]. *)
Theorem stop_during_live_ends_worker cfg env s f1 t1 (n : nat) i ex rest
    i2 env2 more :
  stop_event s = false ->
  go_live cfg env (mkFrame s None) = (Normal tt, f1, t1) ->
  command_queue (self f1) = [] ->
  stop_event (self f1) = false ->
  ticks env = replicate n (mkTick quiet false) ++ mkTick i ex :: rest ->
  stop_set i = true ->
  let c := run (cycle cfg env) s in
  let r := run (_stream_worker cfg ((quiet, env) :: (i2, env2) :: more)) s in
  exists p,
    ffmpeg_proc (self f1) = Some p /\
    ctl_of c = Normal tt /\
    (exists pause,
       trace_of c =
         t1 ++ replicate n (EvSleep 500) ++
         (if ex then [] else [EvTerminate p]) ++ pause /\
       (command_queue (state_of c) = [] -> pause = [EvSleep 3000]) /\
       (arrivals i <> [] -> pause = [])) /\
    stop_event (state_of c) = true /\
    ffmpeg_proc (state_of c) = None /\
    current_index (state_of c) = current_index (self f1) /\
    ctl_of r = Normal tt /\
    trace_of r = trace_of c ++ [EvReady true] /\
    status (get_status (state_of r)) = "ready" /\
    current_index (state_of r) = current_index (self f1).
Proof.
  intros Hs Hlive Hq Hs1 Htk Hstop. cbv zeta.
  destruct (attempt_after_go_live _ _ _ _ _ Hlive) as [Ha [p Hp]].
  exists p. split; [exact Hp |].
  assert (Hcycle :
    run (cycle cfg env) s =
    (Normal tt,
     mkFrame (mkManager None (playlist (self f1)) (current_index (self f1))
                (arrivals i) true (stream_ready (self f1)))
             (command f1),
     t1 ++ replicate n (EvSleep 500) ++
     (if ex then [] else [EvTerminate p]) ++
     (if is_nil (arrivals i) then [EvSleep 3000] else []))).
  { unfold run, cycle, try_except_finally. cbv [bind set_command]. cbn [self].
    rewrite Ha, Htk, wait_for_finish_quiet by (rewrite ?Hp; done).
    destruct f1 as [[pr pl ix q st rd] c]. cbn in Hq, Hs1, Hp |- *.
    destruct i as [arr ss]. cbn in Hstop. subst pr q st ss.
    unfold_worker. cbn.
    destruct ex, arr; cbn; rewrite ?andb_false_r; cbn;
      rewrite ?app_nil_r, <- ?app_assoc; cbn; done. }
  assert (Hworker :
    run (_stream_worker cfg ((quiet, env) :: (i2, env2) :: more)) s =
    (Normal tt,
     mkFrame (mkManager None (playlist (self f1)) (current_index (self f1))
                (arrivals i ++ arrivals i2) true true)
             (command f1),
     (t1 ++ replicate n (EvSleep 500) ++
      (if ex then [] else [EvTerminate p]) ++
      (if is_nil (arrivals i) then [EvSleep 3000] else [])) ++
     [EvReady true])).
  { unfold run at 1. cbn [_stream_worker]. cbv [bind get].
    rewrite interfere_quiet.
    cbn [self]. rewrite Hs. unfold iteration. rewrite cycle_forgets_command.
    cbn [self]. rewrite Hcycle. cbv beta iota.
    cbn [_stream_worker]. cbv [bind get interfere update set_stream_ready emit].
    cbn. done. }
  rewrite Hcycle, Hworker. expose.
  cbn [self command_queue stop_event ffmpeg_proc current_index].
  split; [done |]. split.
  { eexists. split; [reflexivity |].
    split; [by intros -> | by destruct (arrivals i)]. }
  repeat split; try done.
Qed.

Lemma stop_during_live_ends_worker_witness :
  (trace_of (run (cycle Scenario.cfg
                    (Scenario.env_play
                       [mkTick quiet false;
                        mkTick stop_begun false]))
               (Scenario.at_index 0 [])) =
     [EvStart 0 "A"; EvClean; EvReady false;
      EvLaunch 7%nat "A/v" "A/a" "1280x720" "2500k";
      EvProbe true; EvReady true] ++
     replicate 1 (EvSleep 500) ++ [EvTerminate 7%nat] ++ [EvSleep 3000]) /\
  (trace_of (run (cycle Scenario.cfg
                    (Scenario.env_play
                       [mkTick quiet false; mkTick stop_request false]))
               (Scenario.at_index 0 [])) =
     [EvStart 0 "A"; EvClean; EvReady false;
      EvLaunch 7%nat "A/v" "A/a" "1280x720" "2500k";
      EvProbe true; EvReady true] ++
     replicate 1 (EvSleep 500) ++ [EvTerminate 7%nat] ++ []) /\
  ctl_of (run (_stream_worker Scenario.cfg
                 [(quiet, Scenario.env_play
                            [mkTick quiet false; mkTick stop_request false]);
                  (quiet, Scenario.env_no_media)])
            (Scenario.at_index 0 [])) = Normal tt /\
  status (get_status (state_of
    (run (_stream_worker Scenario.cfg
            [(quiet, Scenario.env_play
                       [mkTick quiet false; mkTick stop_request false]);
             (quiet, Scenario.env_no_media)])
       (Scenario.at_index 0 [])))) = "ready" /\
  current_index (state_of
    (run (_stream_worker Scenario.cfg
            [(quiet, Scenario.env_play
                       [mkTick quiet false; mkTick stop_request false]);
             (quiet, Scenario.env_no_media)])
       (Scenario.at_index 0 []))) = 0.
Proof.
  destruct (stop_during_live_ends_worker Scenario.cfg
              (Scenario.env_play [mkTick quiet false; mkTick stop_begun false])
              (Scenario.at_index 0 [])
              (mkFrame (mkManager (Some 7%nat) Scenario.abc 0 [] false true)
                       None)
              [EvStart 0 "A"; EvClean; EvReady false;
               EvLaunch 7%nat "A/v" "A/a" "1280x720" "2500k";
               EvProbe true; EvReady true]
              1%nat stop_begun false [] quiet
              Scenario.env_no_media []
              eq_refl eq_refl eq_refl eq_refl eq_refl eq_refl)
    as (p & Hp & _ & (pause & Ht & Hidle & _) & _).
  injection Hp as <-. rewrite (Hidle eq_refl) in Ht.
  destruct (stop_during_live_ends_worker Scenario.cfg
              (Scenario.env_play
                 [mkTick quiet false; mkTick stop_request false])
              (Scenario.at_index 0 [])
              (mkFrame (mkManager (Some 7%nat) Scenario.abc 0 [] false true)
                       None)
              [EvStart 0 "A"; EvClean; EvReady false;
               EvLaunch 7%nat "A/v" "A/a" "1280x720" "2500k";
               EvProbe true; EvReady true]
              1%nat stop_request false [] quiet Scenario.env_no_media []
              eq_refl eq_refl eq_refl eq_refl eq_refl eq_refl)
    as (p' & Hp' & _ & (pause' & Ht' & _ & Hbusy) & _ & _ & _ & Hc & _
        & Hst & Hi).
  injection Hp' as <-. rewrite (Hbusy ltac:(discriminate)) in Ht'.
  split; [exact Ht |]. split; [exact Ht' |].
  split; [exact Hc |]. split; [exact Hst | exact Hi].
Defined.

(** [stop()] is, for the worker, the interference [stop_request]. *)
Lemma stop_is_stop_request m :
  (Api.stop m).1 = state_of (interfere stop_request (mkFrame m None)).
Proof.
  destruct m as [pr pl i q st rd]. unfold Api.stop, Api.put. cbn.
  by rewrite orb_true_r.
Qed.

(** * Serving the output directory *)

(** X20. [hls_files] serves from the output directory only when the
    requested path does not begin with a separator: then the file is
    [HLS_DIR/path]; a path that begins with one is served as it stands,
    wherever it points, because [os.path.join] drops what precedes an
    absolute component. *)
Theorem hls_files_absolute_path_escapes cwd path :
  (String.prefix "/" path = false ->
   Api.hls_files cwd path = Hls.HLS_DIR cwd +:+ "/" +:+ path) /\
  (String.prefix "/" path = true -> Api.hls_files cwd path = path).
Proof.
  split; intros Hp.
  - by apply path_join_hls_dir.
  - unfold Api.hls_files, Hls.path_join. by rewrite Hp.
Qed.

Lemma hls_files_absolute_path_escapes_witness :
  Api.hls_files "/srv/app" "stream.m3u8" = "/srv/app/hls/stream.m3u8" /\
  Api.hls_files "/srv/app" "/etc/passwd" = "/etc/passwd".
Proof.
  split.
  - apply (proj1 (hls_files_absolute_path_escapes "/srv/app" "stream.m3u8")).
    reflexivity.
  - apply (proj2 (hls_files_absolute_path_escapes "/srv/app" "/etc/passwd")).
    reflexivity.
Defined.

(** * The first load *)

(** X21. What the first successful load plays.  From the untouched index
    [-1] and no command, or after ["next"], playback starts at the first
    video; a ["prev"] queued before the load starts it at the last; a skip
    to [n] within the playlist starts it at video [n].  The resolver is
    called once. *)
Theorem first_load_start cfg env f pl :
  playlist (self f) = [] ->
  current_index (self f) = -1 ->
  resolver env (url cfg) = Returns pl ->
  pl <> [] ->
  let r := select_video cfg env f in
  let len := Z.of_nat (length pl) in
  ctl_of r <> Break ->
  ctl_of r = Normal tt /\
  playlist (state_of r) = pl /\
  trace_of r = [EvFetch (url cfg)] /\
  (command_queue (self f) = [] -> current_index (state_of r) = 0) /\
  (forall q, command_queue (self f) = Next :: q ->
             current_index (state_of r) = 0) /\
  (forall q, command_queue (self f) = Prev :: q ->
             current_index (state_of r) = len - 1) /\
  (forall q n, command_queue (self f) = Skip n :: q -> 1 <= n <= len ->
               current_index (state_of r) = n - 1).
Proof.
  destruct f as [[pr pl0 i q st rd] c].
  cbn [self playlist current_index command_queue].
  intros -> -> Hres Hne. cbv zeta.
  assert (Hnil : is_nil pl = false) by (by destruct pl).
  assert (Hlen : 0 < Z.of_nat (length pl))
    by (destruct pl; cbn; [done | lia]).
  unfold_worker. cbn -[Z.of_nat length].
  destruct q as [| [| | | n] q]; cbn -[Z.of_nat length];
    rewrite ?Hres; cbn -[Z.of_nat length]; rewrite ?Hnil;
    cbn -[Z.of_nat length];
    repeat (case_bool_decide; cbn -[Z.of_nat length]);
    intros Hb; try done; try lia.
  all: repeat split; try done; try lia.
  all: try (intros q' [= <-]; lia).
  all: intros q' n' [= <- <-] Hn; lia.
Qed.

Lemma first_load_start_witness :
  current_index (state_of
    (select_video Scenario.cfg (Scenario.env_play [])
       (mkFrame (mkManager None [] (-1) [Prev] false false) None))) = 3 - 1 /\
  current_index (state_of
    (select_video Scenario.cfg (Scenario.env_play [])
       (mkFrame init_manager None))) = 0.
Proof.
  split.
  - destruct (first_load_start Scenario.cfg (Scenario.env_play [])
                (mkFrame (mkManager None [] (-1) [Prev] false false) None)
                Scenario.abc eq_refl eq_refl eq_refl)
      as (_ & _ & _ & _ & _ & Hprev & _); [discriminate | discriminate |].
    exact (Hprev [] eq_refl).
  - destruct (first_load_start Scenario.cfg (Scenario.env_play [])
                (mkFrame init_manager None) Scenario.abc
                eq_refl eq_refl eq_refl)
      as (_ & _ & _ & Hnone & _); [discriminate | discriminate |].
    exact (Hnone eq_refl).
Defined.
